(** * generate-thumbnails.js: batch thumbnail generation and format benchmark

    A shallow embedding of [src/generate-thumbnails.js].  The script is glue
    around three collaborators (the [path] module, the [fs-extra] file
    system calls and the [sharp] image pipeline), so the embedding consists of

    - the pure helpers the script relies on ([path.extname], [path.parse],
      [path.join], [String.prototype.toLowerCase]),
    - an interface [Env] for the awaited calls, every one of which may
      reject, and for the synchronous calls that build a [sharp] pipeline,
      every one of which may throw,
    - a small monad that threads the world, collects the observable events
      (calls made, console output) and distinguishes normal return, a thrown
      error and [process.exit],
    - the two routines [generateThumbnails] and [benchmarkFormats] and the
      entry point, written in that monad statement by statement,
    - an in-memory file system implementing [Env], on which concrete runs
      are evaluated. *)

From Stdlib Require Import ZArith NArith QArith Ascii String List Bool Lia.
From stdpp Require Import base option list strings gmap.

Import ListNotations.
Local Open Scope string_scope.
Local Open Scope list_scope.

(** ** The [path] module (POSIX flavour)

    Strings are sequences of bytes.  The separator and the dot are ASCII,
    and no byte of a multi-byte UTF-8 character is, so the functions below
    cut a name where the JavaScript functions cut it. *)

Module Path.

Definition sep : ascii := "/"%char.
Definition dot : ascii := "."%char.

Definition chars (s : string) : list ascii := list_ascii_of_string s.
Definition str (l : list ascii) : string := string_of_list_ascii l.

Fixpoint drop_seps (l : list ascii) : list ascii :=
  match l with
  | c :: l' => if Ascii.eqb c sep then drop_seps l' else l
  | [] => []
  end.

Fixpoint take_segment (l : list ascii) : list ascii :=
  match l with
  | c :: l' => if Ascii.eqb c sep then [] else c :: take_segment l'
  | [] => []
  end.

(** The last path component, reversed, trailing separators ignored. *)
Definition rev_base (p : string) : list ascii :=
  take_segment (drop_seps (rev (chars p))).

(** Splits a reversed component at its right-most dot: the characters
    after the dot (still reversed) and the characters before it. *)
Fixpoint split_dot (rb : list ascii) : option (list ascii * list ascii) :=
  match rb with
  | [] => None
  | c :: rb' =>
      if Ascii.eqb c dot then Some ([], rb')
      else match split_dot rb' with
           | Some (rext, rest) => Some (c :: rext, rest)
           | None => None
           end
  end.

(** The extension of a reversed component, reversed, or [[]] when
    [path.extname] gives the empty string: no dot, the only dot is the
    first character, or the component is exactly [..]. *)
Definition rev_ext (rb : list ascii) : list ascii :=
  match split_dot rb with
  | None => []
  | Some (_, []) => []
  | Some (rext, rest) =>
      match rext, rest with
      | [], [d] => if Ascii.eqb d dot then [] else rext ++ [dot]
      | _, _ => rext ++ [dot]
      end
  end.

(** [path.extname(p)] *)
Definition extname (p : string) : string :=
  str (rev (rev_ext (rev_base p))).

(** [path.parse(p).base] *)
Definition base (p : string) : string := str (rev (rev_base p)).

(** [path.parse(p).name]: the base without its extension.  [path.parse]
    does not look at the leading separator of an absolute path, so it
    does not recognize the component [..] of [/..] and takes its last dot
    for an extension. *)
Definition name (p : string) : string :=
  let rb := rev_base p in
  if String.eqb (str (rev (drop_seps (rev (chars p))))) "/.." then "."
  else str (rev (drop (length (rev_ext rb)) rb)).

(** Splitting on the separator, as [normalizeString] walks the path. *)
Fixpoint segments_aux (cur : list ascii) (l : list ascii) : list string :=
  match l with
  | [] => [str (rev cur)]
  | c :: l' =>
      if Ascii.eqb c sep then str (rev cur) :: segments_aux [] l'
      else segments_aux (c :: cur) l'
  end.

Definition segments (p : string) : list string := segments_aux [] (chars p).

(** One step of [normalizeString]: the stack holds the kept segments,
    last one first. *)
Definition push_segment (allowAboveRoot : bool) (stack : list string)
    (seg : string) : list string :=
  if String.eqb seg "" then stack
  else if String.eqb seg "." then stack
  else if String.eqb seg ".." then
    match stack with
    | top :: below =>
        if String.eqb top ".." then seg :: stack else below
    | [] => if allowAboveRoot then [seg] else []
    end
  else seg :: stack.

Fixpoint join_segments (l : list string) : string :=
  match l with
  | [] => ""
  | [s] => s
  | s :: l' => s +:+ "/" +:+ join_segments l'
  end.

Definition starts_with_sep (p : string) : bool :=
  match chars p with c :: _ => Ascii.eqb c sep | [] => false end.

Definition ends_with_sep (p : string) : bool :=
  match rev (chars p) with c :: _ => Ascii.eqb c sep | [] => false end.

(** [path.normalize(p)] *)
Definition normalize (p : string) : string :=
  if String.eqb p "" then "."
  else
    let isAbsolute := starts_with_sep p in
    let trailingSeparator := ends_with_sep p in
    let body :=
      join_segments
        (rev (fold_left (push_segment (negb isAbsolute)) (segments p) [])) in
    if String.eqb body "" then
      if isAbsolute then "/" else if trailingSeparator then "./" else "."
    else
      let body := if trailingSeparator then body +:+ "/" else body in
      if isAbsolute then "/" +:+ body else body.

(** [path.join(a, b)]: empty arguments are skipped, the rest is joined
    with the separator and normalized. *)
Definition join (a b : string) : string :=
  if String.eqb a "" then
    if String.eqb b "" then "." else normalize b
  else if String.eqb b "" then normalize a
  else normalize (a +:+ "/" +:+ b).

End Path.

(** [String.prototype.toLowerCase], on the ASCII letters.  The strings
    compared against are the four ASCII extensions of the filter, and no
    other character lower-cases to one of their letters, so the test of the
    filter is decided by the ASCII part alone. *)
Definition lower_ascii (c : ascii) : ascii :=
  let n := nat_of_ascii c in
  if (65 <=? n)%nat && (n <=? 90)%nat then ascii_of_nat (n + 32) else c.

Definition toLowerCase (s : string) : string :=
  string_of_list_ascii (map lower_ascii (list_ascii_of_string s)).

(** ** JavaScript numbers

    The script computes megabytes, seconds and a percentage with the
    [Number] type, which is IEEE 754 binary64.  A number is a special value
    or a finite rational; every quotient and product is rounded to the
    nearest binary64 value, ties to even, by [round64], so a finite result
    is the rational value of the double the script holds.  Integers (byte
    counts, their sums and differences, milliseconds) are taken below
    [2^53], where they are held exactly.  The sign of zero is not
    represented: every zero divisor of the script is a sum that starts at
    the literal [0] and adds byte counts, so it is [+0]. *)

Inductive jsnum : Type :=
| JFin (q : Q)
| JPosInf
| JNegInf
| JNaN.

(** The exponent [e] with [2^e <= n/d < 2^(e+1)], for [n > 0]. *)
Definition floor_log2 (n : Z) (d : positive) : Z :=
  let e := (Z.log2 n - Z.log2 (Zpos d))%Z in
  if (if (0 <=? e)%Z then (Zpos d * 2 ^ e <=? n)%Z
      else (Zpos d <=? n * 2 ^ (- e))%Z)
  then e else (e - 1)%Z.

(** The integer nearest to [num/den], ties to even. *)
Definition round_half_even (num den : Z) : Z :=
  let m := (num / den)%Z in
  let r := (num mod den)%Z in
  match (2 * r ?= den)%Z with
  | Lt => m
  | Gt => (m + 1)%Z
  | Eq => if Z.even m then m else (m + 1)%Z
  end.

(** The binary64 value nearest to the positive rational [n/d], as a
    significand of at most 53 bits and an exponent (the value is
    [m * 2^k]); [None] when the result overflows.  Below [2^-1022] the
    exponent stays at [-1074], the spacing of the subnormal numbers. *)
Definition round_pos (n : Z) (d : positive) : option (Z * Z) :=
  let e := floor_log2 n d in
  let k := Z.max (e - 52) (-1074) in
  let m := if (0 <=? k)%Z then round_half_even n (Zpos d * 2 ^ k)
           else round_half_even (n * 2 ^ (- k)) (Zpos d) in
  if (1024 <=? Z.log2 m + k)%Z then None else Some (m, k).

Definition scaled (m k : Z) : Q :=
  if (0 <=? k)%Z then inject_Z (m * 2 ^ k)
  else Qred (m # Z.to_pos (2 ^ (- k))).

(** Rounding to binary64, nearest, ties to even. *)
Definition round64 (q : Q) : jsnum :=
  match Qnum q with
  | Z0 => JFin 0
  | Zpos n =>
      match round_pos (Zpos n) (Qden q) with
      | Some (m, k) => JFin (scaled m k)
      | None => JPosInf
      end
  | Zneg n =>
      match round_pos (Zpos n) (Qden q) with
      | Some (m, k) => JFin (Qred (Qopp (scaled m k)))
      | None => JNegInf
      end
  end.

Definition js_of_Z (z : Z) : jsnum := JFin (inject_Z z).
Definition js_of_N (n : N) : jsnum := js_of_Z (Z.of_N n).

Definition q_is_zero (q : Q) : bool := Qeq_bool q 0.
Definition q_is_neg (q : Q) : bool := negb (Qle_bool 0 q).

Definition js_neg (a : jsnum) : jsnum :=
  match a with
  | JFin q => JFin (Qred (Qopp q))
  | JPosInf => JNegInf
  | JNegInf => JPosInf
  | JNaN => JNaN
  end.

(** [a - b] *)
Definition js_sub (a b : jsnum) : jsnum :=
  match a, b with
  | JNaN, _ | _, JNaN => JNaN
  | JFin x, JFin y => JFin (Qred (Qminus x y))
  | JPosInf, JPosInf | JNegInf, JNegInf => JNaN
  | JPosInf, _ => JPosInf
  | JNegInf, _ => JNegInf
  | JFin _, JPosInf => JNegInf
  | JFin _, JNegInf => JPosInf
  end.

(** [a / b] *)
Definition js_div (a b : jsnum) : jsnum :=
  match a, b with
  | JNaN, _ | _, JNaN => JNaN
  | JFin x, JFin y =>
      if q_is_zero y then
        if q_is_zero x then JNaN
        else if q_is_neg x then JNegInf else JPosInf
      else round64 (Qdiv x y)
  | JFin _, _ => JFin 0
  | _, JPosInf | _, JNegInf => JNaN
  | inf, JFin y => if q_is_neg y then js_neg inf else inf
  end.

(** [a * b] *)
Definition js_mul (a b : jsnum) : jsnum :=
  match a, b with
  | JNaN, _ | _, JNaN => JNaN
  | JFin x, JFin y => round64 (Qmult x y)
  | JFin x, inf | inf, JFin x =>
      if q_is_zero x then JNaN else if q_is_neg x then js_neg inf else inf
  | JPosInf, JPosInf | JNegInf, JNegInf => JPosInf
  | _, _ => JNegInf
  end.

(** ** Configuration (lines 17-30) *)

Record size_spec : Type := {
  width : Z;
  height : Z;
  suffix : string
}.

Record config_t : Type := {
  inputDir : string;
  outputDir : string;
  sizes : list size_spec;
  formats : list string;
  quality : gmap string Z
}.

(** The [config] object of the script. *)
Definition config : config_t := {|
  inputDir := "./image";
  outputDir := "./image/thumb";
  sizes := [ {| width := 80; height := 80; suffix := "" |};
             {| width := 160; height := 160; suffix := "@2x" |} ];
  formats := ["jpg"; "webp"; "avif"];
  quality := <["jpg" := 85%Z]> (<["webp" := 80%Z]> (<["avif" := 70%Z]> ∅))
|}.

(** ** The image pipeline handed to [sharp]

    A pipeline is the description the script builds before [toFile]: the
    input path, the resize request and the encoder selected, if any.  An
    option the script leaves out is [None], or [false] for a flag, and is
    then at the default of the library.  What the library makes of the
    pipeline is outside the script. *)

Record resize_t : Type := {
  rs_width : Z;
  rs_height : Z;
  rs_fit : string;
  rs_position : option string
}.

Inductive encoder : Type :=
| Jpeg (q : option Z) (progressive mozjpeg : bool)
| Webp (q : option Z) (effort : option Z)
| Avif (q : option Z) (effort : option Z).

Record pipeline : Type := {
  pl_input : string;
  pl_resize : option resize_t;
  pl_encoder : option encoder
}.

(** [sharp(input)] *)
Definition sharp (input : string) : pipeline :=
  {| pl_input := input; pl_resize := None; pl_encoder := None |}.

(** [pipeline.resize(w, h, { fit, position })] *)
Definition resize (w h : Z) (fit : string) (position : option string)
    (p : pipeline) : pipeline :=
  {| pl_input := pl_input p;
     pl_resize := Some {| rs_width := w; rs_height := h;
                          rs_fit := fit; rs_position := position |};
     pl_encoder := pl_encoder p |}.

(** [pipeline.jpeg(..)], [pipeline.webp(..)], [pipeline.avif(..)] *)
Definition with_encoder (e : encoder) (p : pipeline) : pipeline :=
  {| pl_input := pl_input p; pl_resize := pl_resize p; pl_encoder := Some e |}.

Definition encoder_quality (e : encoder) : option Z :=
  match e with Jpeg q _ _ | Webp q _ | Avif q _ => q end.

(** ** Observable events *)

Inductive result (A : Type) : Type :=
| Ok (a : A)
| Rejected (msg : string).
Arguments Ok {A} a.
Arguments Rejected {A} msg.

(** One constructor per [console.log] call of the script, carrying the
    interpolated values.  Numbers are carried before [toFixed]. *)
Inductive line : Type :=
| LFound (n : nat)                                  (* line 44 *)
| LOutputDirectory (dir : string)                   (* line 45 *)
| LGeneratingSizes (l : list (Z * Z * string))      (* line 46 *)
| LFormats (l : list string)                        (* line 47 *)
| LBlank                                            (* lines 48, 114 *)
| LProcessing (file : string)                       (* line 57 *)
| LThumbnail (outputFilename : string) (sizeMB : jsnum)   (* line 101 *)
| LFailed (outputFilename : string) (msg : string)  (* line 105 *)
| LComplete (totalProcessed : nat) (seconds : jsnum) (* line 115 *)
| LSavedTo (dir : string)                           (* line 116 *)
| LSizeReduction (originalMB thumbMB savings : jsnum) (* line 137 *)
| LBenchmarkSkipped                                 (* line 150 *)
| LBenchmarking                                     (* line 154 *)
| LTitle                                            (* line 202 *)
| LRule.                                            (* line 203 *)

(** A cell of the benchmark table: a size in KB, a time in ms, or text. *)
Inductive cell : Type :=
| CKB (kb : jsnum)
| CMs (ms : Z)
| CText (s : string).

Record row : Type := {
  row_format : string;
  row_size : cell;
  row_time : cell
}.

Inductive event : Type :=
| EEnsureDir (dir : string) (r : result unit)
| EReaddir (dir : string) (r : result (list string))
| EStat (path : string) (r : result N)
| EPathExists (path : string) (r : result bool)
| ERemove (path : string) (r : result unit)
| EToFile (p : pipeline) (out : string) (r : result unit)
| ENow (t : Z)
| ELog (l : line)                      (* console.log *)
| EErrorMessage (msg : string)         (* console.error('Error:', error.message) *)
| EErrorValue (msg : string)           (* console.error(error) *)
| ETable (rows : list row)             (* console.table *)
| EExit (code : Z).                    (* process.exit *)

(** ** The calls into the libraries

    [W] is the state of everything outside the script: the file system and
    the clock.  Each awaited call returns its result and the new world.

    [sharp(input)], [.resize(..)] and [.jpeg(..)], [.webp(..)], [.avif(..)]
    are synchronous: each checks its arguments and throws when it refuses
    them, before anything is read or written.  The three [_error] fields
    give the message thrown, if any. *)
Class Env (W : Type) : Type := {
  fs_ensureDir : string -> W -> result unit * W;
  fs_readdir : string -> W -> result (list string) * W;
  fs_stat : string -> W -> result N * W;
  fs_pathExists : string -> W -> result bool * W;
  fs_remove : string -> W -> result unit * W;
  sharp_toFile : pipeline -> string -> W -> result unit * W;
  sharp_input_error : string -> option string;
  sharp_resize_error : resize_t -> option string;
  sharp_encoder_error : encoder -> option string;
  Date_now : W -> Z * W
}.

(** ** The monad of the script *)

Inductive outcome (A : Type) : Type :=
| Ret (a : A)
| Throw (msg : string)
| Exit (code : Z).
Arguments Ret {A} a.
Arguments Throw {A} msg.
Arguments Exit {A} code.

(** The result of running a piece of the script: how it ended, the mutable
    locals of the enclosing function, the world, and the events emitted. *)
Record run (L W A : Type) : Type := Run {
  res : outcome A;
  loc : L;
  wld : W;
  evs : list event
}.
Arguments Run {L W A} res loc wld evs.
Arguments res {L W A} r.
Arguments loc {L W A} r.
Arguments wld {L W A} r.
Arguments evs {L W A} r.

Definition M (L W A : Type) : Type := L -> W -> run L W A.

Section Monad.
Context {L W : Type}.

Definition ret {A} (a : A) : M L W A := fun l w => Run (Ret a) l w [].

Definition throw {A} (msg : string) : M L W A :=
  fun l w => Run (Throw msg) l w [].

Definition bind {A B} (m : M L W A) (k : A -> M L W B) : M L W B :=
  fun l w =>
    match m l w with
    | Run (Ret a) l1 w1 e1 =>
        match k a l1 w1 with
        | Run o l2 w2 e2 => Run o l2 w2 (e1 ++ e2)
        end
    | Run (Throw msg) l1 w1 e1 => Run (Throw msg) l1 w1 e1
    | Run (Exit c) l1 w1 e1 => Run (Exit c) l1 w1 e1
    end.

(** [try { m } catch (error) { handler error.message }]: assignments made
    to the locals before the throw are kept; [process.exit] is not an
    exception and passes through. *)
Definition try_catch {A} (m : M L W A) (handler : string -> M L W A)
    : M L W A :=
  fun l w =>
    match m l w with
    | Run (Throw msg) l1 w1 e1 =>
        match handler msg l1 w1 with
        | Run o l2 w2 e2 => Run o l2 w2 (e1 ++ e2)
        end
    | r => r
    end.

Definition emit (e : event) : M L W unit := fun l w => Run (Ret tt) l w [e].

Definition console_log (ln : line) : M L W unit := emit (ELog ln).

(** [process.exit(code)] *)
Definition process_exit {A} (code : Z) : M L W A :=
  fun l w => Run (Exit code) l w [EExit code].

Definition get_local : M L W L := fun l w => Run (Ret l) l w [].
Definition set_local (l' : L) : M L W unit := fun _ w => Run (Ret tt) l' w [].

(** Lifting an awaited call: the call is recorded with its result, and a
    rejection is thrown at the [await]. *)
Definition await {A} (call : W -> result A * W)
    (ev : result A -> event) : M L W A :=
  fun l w =>
    let (r, w') := call w in
    Run (match r with Ok a => Ret a | Rejected msg => Throw msg end)
        l w' [ev r].

(** [for (const x of l) body] *)
Fixpoint for_of {A} (l : list A) (body : A -> M L W unit) : M L W unit :=
  match l with
  | [] => ret tt
  | x :: l' => bind (body x) (fun _ => for_of l' body)
  end.

(** The settled value of a promise, without throwing. *)
Definition settle {A} (m : M L W A) : M L W (result A) :=
  try_catch (bind m (fun a => ret (Ok a))) (fun msg => ret (Rejected msg)).

Fixpoint settle_all {A} (l : list (M L W A)) : M L W (list (result A)) :=
  match l with
  | [] => ret []
  | m :: l' =>
      bind (settle m) (fun r =>
      bind (settle_all l') (fun rs => ret (r :: rs)))
  end.

Fixpoint all_values {A} (rs : list (result A)) : result (list A) :=
  match rs with
  | [] => Ok []
  | Rejected msg :: _ => Rejected msg
  | Ok a :: rs' =>
      match all_values rs' with
      | Ok l => Ok (a :: l)
      | Rejected msg => Rejected msg
      end
  end.

(** [await Promise.all(l)]: every promise of the array is started, in
    order; the result is the array of values, or the rejection of the
    first rejected promise (in array order; the embedding runs the calls
    one after the other). *)
Definition promise_all {A} (l : list (M L W A)) : M L W (list A) :=
  bind (settle_all l) (fun rs =>
    match all_values rs with
    | Ok vs => ret vs
    | Rejected msg => throw msg
    end).

End Monad.

(** Calling a function: it runs with locals of its own. *)
Definition call_fn {L L' W A} (init : L') (m : M L' W A) : M L W A :=
  fun l w => match m init w with Run o _ w1 e1 => Run o l w1 e1 end.

Declare Scope script_scope.
Delimit Scope script_scope with script.
Notation "x <- m ;; k" := (bind m (fun x => k))
  (at level 100, m at next level, right associativity) : script_scope.
Notation "m ;;; k" := (bind m (fun _ => k))
  (at level 100, right associativity) : script_scope.
Local Open Scope script_scope.

Section Calls.
Context {L W : Type} `{Env W}.

Definition ensureDir (dir : string) : M L W unit :=
  await (fs_ensureDir dir) (EEnsureDir dir).
Definition readdir (dir : string) : M L W (list string) :=
  await (fs_readdir dir) (EReaddir dir).
Definition stat_size (path : string) : M L W N :=
  await (fs_stat path) (EStat path).
Definition pathExists (path : string) : M L W bool :=
  await (fs_pathExists path) (EPathExists path).
Definition remove (path : string) : M L W unit :=
  await (fs_remove path) (ERemove path).
Definition toFile (p : pipeline) (out : string) : M L W unit :=
  await (sharp_toFile p out) (EToFile p out).
Definition now : M L W Z :=
  fun l w => let (t, w') := Date_now w in Run (Ret t) l w' [ENow t].

(** A synchronous call that validates its arguments: it throws the message
    of the refusal, or returns its value. *)
Definition checked {A} (err : option string) (a : A) : M L W A :=
  match err with
  | Some msg => throw msg
  | None => ret a
  end.

(** [sharp(input)] *)
Definition new_sharp (input : string) : M L W pipeline :=
  checked (sharp_input_error input) (sharp input).

(** [pipeline.resize(w, h, { fit, position })] *)
Definition call_resize (w h : Z) (fit : string) (position : option string)
    (p : pipeline) : M L W pipeline :=
  checked
    (sharp_resize_error {| rs_width := w; rs_height := h;
                           rs_fit := fit; rs_position := position |})
    (resize w h fit position p).

(** [pipeline.jpeg(..)], [pipeline.webp(..)], [pipeline.avif(..)] *)
Definition call_encoder (e : encoder) (p : pipeline) : M L W pipeline :=
  checked (sharp_encoder_error e) (with_encoder e p).

(** The message with which the library refuses to build a pipeline, if it
    does: that of the first refused call, in the order input, resize,
    encoder. *)
Definition pipeline_refusal (p : pipeline) : option string :=
  match sharp_input_error (W := W) (pl_input p) with
  | Some msg => Some msg
  | None =>
      match pl_resize p ≫= sharp_resize_error (W := W) with
      | Some msg => Some msg
      | None => pl_encoder p ≫= sharp_encoder_error (W := W)
      end
  end.
End Calls.
Arguments pipeline_refusal W {_} p.

(** ** generateThumbnails (lines 32-143) *)

Definition image_extensions : list string := [".jpg"; ".jpeg"; ".png"; ".webp"].

(** The predicate of the filter, lines 39-42. *)
Definition is_image_file (file : string) : bool :=
  let ext := toLowerCase (Path.extname file) in
  existsb (fun e => String.eqb e ext) image_extensions.

(** The encoder the [switch] of lines 72-93 selects, as a description. *)
Definition select_encoder (cfg : config_t) (format : string) (p : pipeline)
    : pipeline :=
  if String.eqb format "jpg" || String.eqb format "jpeg" then
    with_encoder (Jpeg (quality cfg !! "jpg") true true) p
  else if String.eqb format "webp" then
    with_encoder (Webp (quality cfg !! "webp") (Some 6%Z)) p
  else if String.eqb format "avif" then
    with_encoder (Avif (quality cfg !! "avif") (Some 4%Z)) p
  else p.

Definition output_filename (basename : string) (size : size_spec)
    (format : string) : string :=
  basename +:+ suffix size +:+ "." +:+ format.

(** The description of the pipeline built at lines 65-93, when every call
    that builds it is accepted. *)
Definition thumbnail_pipeline (cfg : config_t) (inputPath : string)
    (size : size_spec) (format : string) : pipeline :=
  select_encoder cfg format
    (resize (width size) (height size) "cover" (Some "center")
       (sharp inputPath)).

Definition bytes_to_MB (n : N) : jsnum :=
  js_div (js_div (js_of_N n) (js_of_Z 1024)) (js_of_Z 1024).

Definition sum_sizes (l : list N) : N := fold_left N.add l 0%N.

(** Line 136, before [toFixed(1)]. *)
Definition savings_percent (totalOriginalSize totalThumbSize : N) : jsnum :=
  js_mul
    (js_div (js_sub (js_of_N totalOriginalSize) (js_of_N totalThumbSize))
            (js_of_N totalOriginalSize))
    (js_of_Z 100).

Section Script.
Context {W : Type} `{Env W}.
Variable cfg : config_t.

(** The [switch] of lines 72-93. *)
Definition switch_format {L} (format : string) (p : pipeline)
    : M L W pipeline :=
  if String.eqb format "jpg" || String.eqb format "jpeg" then
    call_encoder (Jpeg (quality cfg !! "jpg") true true) p
  else if String.eqb format "webp" then
    call_encoder (Webp (quality cfg !! "webp") (Some 6%Z)) p
  else if String.eqb format "avif" then
    call_encoder (Avif (quality cfg !! "avif") (Some 4%Z)) p
  else ret p.

(** Lines 65-93: the pipeline is built by synchronous calls. *)
Definition build_thumbnail {L} (inputPath : string) (size : size_spec)
    (format : string) : M L W pipeline :=
  created <- new_sharp inputPath ;;
  resized <- call_resize (width size) (height size) "cover" (Some "center")
               created ;;
  switch_format format resized.

(** The body of the innermost loop, lines 61-106.  The mutable local of
    [generateThumbnails] is [totalProcessed]. *)
Definition thumbnail (basename inputPath : string) (size : size_spec)
    (format : string) : M nat W unit :=
  let outputFilename := output_filename basename size format in
  let outputPath := Path.join (outputDir cfg) outputFilename in
  try_catch
    (pipeline <- build_thumbnail inputPath size format ;;
     toFile pipeline outputPath ;;;
     size_ <- stat_size outputPath ;;
     let sizeMB := bytes_to_MB size_ in
     console_log (LThumbnail outputFilename sizeMB) ;;;
     totalProcessed <- get_local ;;
     set_local (S totalProcessed))
    (fun msg => console_log (LFailed outputFilename msg)).

(** The body of the outermost loop, lines 54-108. *)
Definition process_file (file : string) : M nat W unit :=
  let basename := Path.name file in
  let inputPath := Path.join (inputDir cfg) file in
  console_log (LProcessing file) ;;;
  for_of (sizes cfg) (fun size =>
    for_of (formats cfg) (fun format =>
      thumbnail basename inputPath size format)).

(** Lines 119-137. *)
Definition report_savings (imageFiles : list string) : M nat W unit :=
  originalSizes <-
    promise_all
      (map (fun file => stat_size (Path.join (inputDir cfg) file))
           imageFiles) ;;
  let totalOriginalSize := sum_sizes originalSizes in
  thumbFiles <- readdir (outputDir cfg) ;;
  thumbSizes <-
    promise_all
      (map (fun file => stat_size (Path.join (outputDir cfg) file))
           thumbFiles) ;;
  let totalThumbSize := sum_sizes thumbSizes in
  let savings := savings_percent totalOriginalSize totalThumbSize in
  console_log
    (LSizeReduction (bytes_to_MB totalOriginalSize)
                    (bytes_to_MB totalThumbSize) savings).

(** Lines 35-48. *)
Definition scan_input : M nat W (list string) :=
  ensureDir (outputDir cfg) ;;;
  files <- readdir (inputDir cfg) ;;
  let imageFiles := List.filter is_image_file files in
  console_log (LFound (length imageFiles)) ;;;
  console_log (LOutputDirectory (outputDir cfg)) ;;;
  console_log
    (LGeneratingSizes
       (map (fun s => (width s, height s, suffix s)) (sizes cfg))) ;;;
  console_log (LFormats (formats cfg)) ;;;
  console_log LBlank ;;;
  ret imageFiles.

(** Lines 50-116. *)
Definition convert_all (imageFiles : list string) : M nat W unit :=
  set_local 0%nat ;;;
  startTime <- now ;;
  for_of imageFiles process_file ;;;
  endTime <- now ;;
  let duration :=
    js_div (js_of_Z (endTime - startTime)) (js_of_Z 1000) in
  console_log LBlank ;;;
  totalProcessed <- get_local ;;
  console_log (LComplete totalProcessed duration) ;;;
  console_log (LSavedTo (outputDir cfg)).

(** The [try] block of lines 33-138. *)
Definition generateThumbnails_try : M nat W unit :=
  imageFiles <- scan_input ;;
  convert_all imageFiles ;;;
  report_savings imageFiles.

(** The [catch] block of lines 139-142. *)
Definition generateThumbnails_catch (msg : string) : M nat W unit :=
  emit (EErrorMessage msg) ;;;
  process_exit 1.

Definition generateThumbnails {L} : M L W unit :=
  call_fn 0%nat (try_catch generateThumbnails_try generateThumbnails_catch).

(** ** benchmarkFormats (lines 146-199) *)

(** The encoder the [switch] of lines 165-175 selects, as a description. *)
Definition benchmark_encoder (format : string) (p : pipeline) : pipeline :=
  if String.eqb format "jpg" then
    with_encoder (Jpeg (quality cfg !! "jpg") false false) p
  else if String.eqb format "webp" then
    with_encoder (Webp (quality cfg !! "webp") None) p
  else if String.eqb format "avif" then
    with_encoder (Avif (quality cfg !! "avif") None) p
  else p.

(** The description of the pipeline built at lines 161-175, when every call
    that builds it is accepted. *)
Definition benchmark_pipeline (testImage format : string) : pipeline :=
  benchmark_encoder format (resize 80 80 "cover" None (sharp testImage)).

(** The [switch] of lines 165-175. *)
Definition switch_benchmark {L} (format : string) (p : pipeline)
    : M L W pipeline :=
  if String.eqb format "jpg" then
    call_encoder (Jpeg (quality cfg !! "jpg") false false) p
  else if String.eqb format "webp" then
    call_encoder (Webp (quality cfg !! "webp") None) p
  else if String.eqb format "avif" then
    call_encoder (Avif (quality cfg !! "avif") None) p
  else ret p.

(** Lines 161-175. *)
Definition build_benchmark {L} (testImage format : string)
    : M L W pipeline :=
  created <- new_sharp testImage ;;
  resized <- call_resize 80 80 "cover" None created ;;
  switch_benchmark format resized.

Definition temp_path (format : string) : string := "temp-test." +:+ format.

(** [results.push(r)]; the mutable local of [benchmarkFormats] is the
    array [results]. *)
Definition push (r : row) : M (list row) W unit :=
  results <- get_local ;; set_local (results ++ [r]).

(** The body of the loop, lines 159-195. *)
Definition benchmark_format (testImage format : string)
    : M (list row) W unit :=
  start <- now ;;
  let tempPath := temp_path format in
  try_catch
    (pipeline <- build_benchmark testImage format ;;
     toFile pipeline tempPath ;;;
     size_ <- stat_size tempPath ;;
     finish <- now ;;
     let duration := (finish - start)%Z in
     push {| row_format := format;
             row_size := CKB (js_div (js_of_N size_) (js_of_Z 1024));
             row_time := CMs duration |} ;;;
     remove tempPath)
    (fun msg =>
       push {| row_format := format;
               row_size := CText "Error";
               row_time := CText msg |}).

Definition test_image : string := Path.join (inputDir cfg) "1.jpg".

Definition benchmarkFormats_body : M (list row) W unit :=
  let testImage := test_image in
  found <- pathExists testImage ;;
  if negb found then
    console_log LBenchmarkSkipped
  else
    console_log LBenchmarking ;;;
    for_of (formats cfg) (benchmark_format testImage) ;;;
    results <- get_local ;;
    emit (ETable results).

Definition benchmarkFormats {L} : M L W unit :=
  call_fn [] benchmarkFormats_body.

(** ** The entry point (lines 201-208) *)

Definition main : M unit W unit :=
  console_log LTitle ;;;
  console_log LRule ;;;
  try_catch
    (generateThumbnails ;;; benchmarkFormats)
    (fun msg => emit (EErrorValue msg)).

End Script.

(** The exit status of the process: [0] when the event loop drains, the
    argument of [process.exit] otherwise; an uncaught rejection ends the
    process with status [1]. *)
Definition exit_status {A} (o : outcome A) : Z :=
  match o with
  | Ret _ => 0%Z
  | Throw _ => 1%Z
  | Exit c => c
  end.

(** ** An in-memory file system

    A world on which the script can be run: a table of nodes keyed by
    normalized path (in directory order), a clock, an encoder size table and
    a list of injected faults. *)

Module MemFS.

Inductive content : Type :=
| Picture (tag : string)          (* a decodable source image *)
| Garbage                         (* bytes that are not an image *)
| Encoded (src : content) (p : pipeline).   (* written by [toFile] *)

Inductive node : Type :=
| Dir
| File (size : N) (c : content).

Record t : Type := {
  nodes : list (string * node);
  clock : Z;
  tick : Z;
  encoded_size : pipeline -> N;
  (** (operation, normalized path, message): the operation rejects with
      the message on that path. *)
  faults : list (string * string * string)
}.

Definition with_nodes (l : list (string * node)) (w : t) : t :=
  {| nodes := l; clock := clock w; tick := tick w;
     encoded_size := encoded_size w; faults := faults w |}.

Fixpoint find_node (l : list (string * node)) (p : string) : option node :=
  match l with
  | [] => None
  | (k, n) :: l' => if String.eqb k p then Some n else find_node l' p
  end.

(** The working directory always exists. *)
Definition lookup (w : t) (p : string) : option node :=
  if String.eqb p "." then Some Dir else find_node (nodes w) p.

Fixpoint upsert (l : list (string * node)) (p : string) (n : node)
    : list (string * node) :=
  match l with
  | [] => [(p, n)]
  | (k, n') :: l' =>
      if String.eqb k p then (k, n) :: l' else (k, n') :: upsert l' p n
  end.

Fixpoint find_fault (l : list (string * string * string))
    (op p : string) : option string :=
  match l with
  | [] => None
  | (o, k, msg) :: l' =>
      if String.eqb o op && String.eqb k p then Some msg
      else find_fault l' op p
  end.

(** [path.dirname] of a normalized relative or absolute path. *)
Definition parent (p : string) : string :=
  match rev (Path.segments p) with
  | [] | [_] => "."
  | _ :: up => Path.normalize (Path.join_segments (rev up) +:+ "/")
  end.

Definition strip_trailing (p : string) : string :=
  if String.eqb p "/" then p
  else Path.str (rev (Path.drop_seps (rev (Path.chars p)))).

Definition norm (p : string) : string := strip_trailing (Path.normalize p).

Definition is_under (dir p : string) : bool := String.eqb (norm (parent p)) dir.

Definition entries (w : t) (dir : string) : list string :=
  map (fun kn => Path.base (fst kn))
      (List.filter (fun kn => is_under dir (fst kn)) (nodes w)).

(** The chain of directories leading to [p], outermost first. *)
Fixpoint prefixes (acc : string) (segs : list string) : list string :=
  match segs with
  | [] => []
  | s :: segs' =>
      let here := if String.eqb acc "" then s else acc +:+ "/" +:+ s in
      here :: prefixes here segs'
  end.

Fixpoint make_dirs (l : list (string * node)) (ps : list string)
    : result (list (string * node)) :=
  match ps with
  | [] => Ok l
  | p :: ps' =>
      if String.eqb p "" || String.eqb p "." then make_dirs l ps'
      else
        match find_node l p with
        | Some Dir => make_dirs l ps'
        | Some (File _ _) => Rejected ("ENOTDIR: not a directory, mkdir " +:+ p)
        | None => make_dirs (upsert l p Dir) ps'
        end
  end.

Definition m_ensureDir (dir : string) (w : t) : result unit * t :=
  let d := norm dir in
  match find_fault (faults w) "ensureDir" d with
  | Some msg => (Rejected msg, w)
  | None =>
      match make_dirs (nodes w) (prefixes "" (Path.segments d)) with
      | Ok l => (Ok tt, with_nodes l w)
      | Rejected msg => (Rejected msg, w)
      end
  end.

Definition m_readdir (dir : string) (w : t) : result (list string) * t :=
  let d := norm dir in
  match find_fault (faults w) "readdir" d with
  | Some msg => (Rejected msg, w)
  | None =>
      match lookup w d with
      | Some Dir => (Ok (entries w d), w)
      | Some (File _ _) =>
          (Rejected ("ENOTDIR: not a directory, scandir " +:+ dir), w)
      | None =>
          (Rejected ("ENOENT: no such file or directory, scandir " +:+ dir), w)
      end
  end.

Definition m_stat (path : string) (w : t) : result N * t :=
  let p := norm path in
  match find_fault (faults w) "stat" p with
  | Some msg => (Rejected msg, w)
  | None =>
      match lookup w p with
      | Some (File size _) => (Ok size, w)
      | Some Dir => (Ok 4096%N, w)
      | None =>
          (Rejected ("ENOENT: no such file or directory, stat " +:+ path), w)
      end
  end.

Definition m_pathExists (path : string) (w : t) : result bool * t :=
  let p := norm path in
  match find_fault (faults w) "pathExists" p with
  | Some msg => (Rejected msg, w)
  | None => (Ok (match lookup w p with Some _ => true | None => false end), w)
  end.

Definition m_remove (path : string) (w : t) : result unit * t :=
  let p := norm path in
  match find_fault (faults w) "remove" p with
  | Some msg => (Rejected msg, w)
  | None =>
      (Ok tt,
       with_nodes
         (List.filter (fun kn => negb (String.eqb (fst kn) p)) (nodes w)) w)
  end.

Definition m_toFile (pl : pipeline) (out : string) (w : t)
    : result unit * t :=
  let o := norm out in
  let i := norm (pl_input pl) in
  match find_fault (faults w) "toFile" o with
  | Some msg => (Rejected msg, w)
  | None =>
      match lookup w i with
      | None | Some Dir =>
          (Rejected ("Input file is missing: " +:+ pl_input pl), w)
      | Some (File _ Garbage) =>
          (Rejected "Input file contains unsupported image format", w)
      | Some (File _ src) =>
          if String.eqb i o then
            (Rejected "Cannot use same file for input and output", w)
          else
            match lookup w (norm (parent o)) with
            | Some Dir =>
                (Ok tt,
                 with_nodes
                   (upsert (nodes w) o
                      (File (encoded_size w pl) (Encoded src pl))) w)
            | _ => (Rejected ("unable to open for write: " +:+ out), w)
            end
      end
  end.

Definition m_now (w : t) : Z * t :=
  (clock w,
   {| nodes := nodes w; clock := (clock w + tick w)%Z; tick := tick w;
      encoded_size := encoded_size w; faults := faults w |}).

(** The checks of the image library on the options the script passes: the
    dimensions are positive, a quality that is given lies between 1 and
    100, an effort that is given lies between 0 and the maximum of the
    encoder. *)
Definition m_resize_error (r : resize_t) : option string :=
  if (rs_width r <=? 0)%Z then Some "Expected positive integer for width"
  else if (rs_height r <=? 0)%Z then Some "Expected positive integer for height"
  else None.

Definition out_of_range (lo hi : Z) (v : option Z) : bool :=
  match v with
  | Some x => (x <? lo)%Z || (hi <? x)%Z
  | None => false
  end.

Definition m_encoder_error (e : encoder) : option string :=
  if out_of_range 1 100 (encoder_quality e)
  then Some "Expected integer between 1 and 100 for quality"
  else
    match e with
    | Jpeg _ _ _ => None
    | Webp _ effort =>
        if out_of_range 0 6 effort
        then Some "Expected integer between 0 and 6 for effort" else None
    | Avif _ effort =>
        if out_of_range 0 9 effort
        then Some "Expected integer between 0 and 9 for effort" else None
    end.

#[global] Instance env : Env t := {|
  fs_ensureDir := m_ensureDir;
  fs_readdir := m_readdir;
  fs_stat := m_stat;
  fs_pathExists := m_pathExists;
  fs_remove := m_remove;
  sharp_toFile := m_toFile;
  sharp_input_error := fun _ => None;
  sharp_resize_error := m_resize_error;
  sharp_encoder_error := m_encoder_error;
  Date_now := m_now
|}.

(** Thumbnails of [w]x[h] weigh [w*h/8] bytes in the examples. *)
Definition area_size (p : pipeline) : N :=
  match pl_resize p with
  | Some r => Z.to_N (rs_width r * rs_height r / 8)
  | None => 1000%N
  end.

Definition make (l : list (string * node))
    (f : list (string * string * string)) : t :=
  {| nodes := l; clock := 1000; tick := 7; encoded_size := area_size;
     faults := f |}.

End MemFS.

(** ** Concrete worlds and configurations *)

(** A gallery with one photograph and one text file, and no test image. *)
Definition gallery : MemFS.t :=
  MemFS.make
    [ ("image", MemFS.Dir);
      ("image/a.jpg", MemFS.File 50000 (MemFS.Picture "a"));
      ("image/notes.txt", MemFS.File 300 MemFS.Garbage) ]
    [].

(** A directory without any image. *)
Definition no_images : MemFS.t :=
  MemFS.make
    [ ("image", MemFS.Dir);
      ("image/notes.txt", MemFS.File 300 MemFS.Garbage);
      ("image/.jpg", MemFS.File 10 MemFS.Garbage) ]
    [].


(** A source that cannot be decoded next to one that can. *)
Definition one_corrupt : MemFS.t :=
  MemFS.make
    [ ("image", MemFS.Dir);
      ("image/bad.png", MemFS.File 777 MemFS.Garbage);
      ("image/good.png", MemFS.File 9000 (MemFS.Picture "g")) ]
    [].

(** The input directory name is taken by a regular file. *)
Definition image_is_a_file : MemFS.t :=
  MemFS.make [ ("image", MemFS.File 12 MemFS.Garbage) ] [].

(** The test image is present; the size of the temporary WebP file cannot
    be queried. *)
Definition stat_refused : MemFS.t :=
  MemFS.make
    [ ("image", MemFS.Dir);
      ("image/1.jpg", MemFS.File 4000 (MemFS.Picture "one")) ]
    [ ("stat", "temp-test.webp", "EACCES: permission denied, stat") ].

(** The existence check of the test image itself rejects. *)
Definition access_rejects : MemFS.t :=
  MemFS.make
    [ ("image", MemFS.Dir);
      ("image/a.jpg", MemFS.File 50000 (MemFS.Picture "a")) ]
    [ ("pathExists", "image/1.jpg", "EIO: i/o error, access") ].


Definition one_png : MemFS.t :=
  MemFS.make
    [ ("image", MemFS.Dir);
      ("image/a.png", MemFS.File 70000 (MemFS.Picture "a")) ]
    [].

(** A configuration that writes the thumbnails next to the sources. *)
Definition config_in_place : config_t := {|
  inputDir := "./image";
  outputDir := "./image";
  sizes := sizes config;
  formats := formats config;
  quality := quality config
|}.



(** The bytes of the regular files found directly in a directory, all of
    them or only those with a recognized extension. *)
Definition directory_bytes (keep : string -> bool) (w : MemFS.t)
    (dir : string) : N :=
  sum_sizes
    (omap (fun kn => match snd kn with
                     | MemFS.File size _ =>
                         if MemFS.is_under dir (fst kn)
                            && keep (Path.base (fst kn))
                         then Some size else None
                     | MemFS.Dir => None
                     end) (MemFS.nodes w)).

(** The events that follow the last conversion. *)
Fixpoint after_conversions (es : list event) : list event :=
  match es with
  | [] => []
  | e :: es' =>
      if existsb (fun e' => match e' with EToFile _ _ _ => true | _ => false end) es
      then after_conversions es' else es
  end.

(** ** Views of an event list *)

(** The [toFile] calls made, whatever their result. *)
Definition tofile_calls (es : list event) : list (pipeline * string) :=
  omap (fun e => match e with EToFile p out _ => Some (p, out) | _ => None end) es.

(** The files announced by a [Processing] line. *)
Definition processed_files (es : list event) : list string :=
  omap (fun e => match e with ELog (LProcessing f) => Some f | _ => None end) es.

(** The thumbnails reported as written. *)
Definition thumbnails_logged (es : list event) : list string :=
  omap (fun e => match e with ELog (LThumbnail n _) => Some n | _ => None end) es.

(** The [Failed] lines: output filename and message. *)
Definition failures_logged (es : list event) : list (string * string) :=
  omap (fun e => match e with ELog (LFailed n msg) => Some (n, msg) | _ => None end) es.

(** The output filenames named by a per-task line, written or failed. *)
Definition reported_names (es : list event) : list string :=
  omap (fun e => match e with
                 | ELog (LThumbnail n _) => Some n
                 | ELog (LFailed n _) => Some n
                 | _ => None
                 end) es.

(** The directories listed. *)
Definition listed_dirs (es : list event) : list string :=
  omap (fun e => match e with EReaddir d _ => Some d | _ => None end) es.

(** The paths whose size was obtained. *)
Definition stat_ok_paths (es : list event) : list string :=
  omap (fun e => match e with EStat p (Ok _) => Some p | _ => None end) es.

(** The paths handed to [fs.remove]. *)
Definition removed_paths (es : list event) : list string :=
  omap (fun e => match e with ERemove p _ => Some p | _ => None end) es.

(** What reaches [console.error] and [process.exit]. *)
Definition top_level_errors (es : list event) : list string :=
  omap (fun e => match e with EErrorMessage msg => Some msg | _ => None end) es.

(** The size-reduction lines: the three numbers printed. *)
Definition size_reports (es : list event) : list (jsnum * jsnum * jsnum) :=
  omap (fun e => match e with
                 | ELog (LSizeReduction o t s) => Some (o, t, s)
                 | _ => None
                 end) es.

Definition exit_calls (es : list event) : list Z :=
  omap (fun e => match e with EExit c => Some c | _ => None end) es.

(** The conversion tasks of a run, in the order of the three loops. *)
Definition task_calls (cfg : config_t) (imageFiles : list string)
    : list (pipeline * string) :=
  flat_map (fun file =>
    flat_map (fun size =>
      map (fun format =>
             (thumbnail_pipeline cfg (Path.join (inputDir cfg) file) size format,
              Path.join (outputDir cfg)
                (output_filename (Path.name file) size format)))
          (formats cfg))
      (sizes cfg))
    imageFiles.

(** The output filenames of the conversion tasks, in loop order. *)
Definition task_names (cfg : config_t) (imageFiles : list string)
    : list string :=
  flat_map (fun file =>
    flat_map (fun size =>
      map (fun format => output_filename (Path.name file) size format)
          (formats cfg))
      (sizes cfg))
    imageFiles.

(** The paths the image library reported as written. *)
Definition written_paths (es : list event) : list string :=
  omap (fun e => match e with EToFile _ out (Ok _) => Some out | _ => None end) es.

(** The conversions of a run whose pipeline the image library accepts to
    build: the others throw before [toFile] is reached. *)
Section Accepted.
Context (W : Type) `{Env W}.

Definition accepted (p : pipeline) : bool :=
  match pipeline_refusal W p with
  | None => true
  | Some _ => false
  end.

Definition accepted_calls (cfg : config_t) (imageFiles : list string)
    : list (pipeline * string) :=
  List.filter (fun c => accepted (fst c)) (task_calls cfg imageFiles).

(** How a conversion fails, from what the library and the file system
    answer in the world [w]: the message of the error, the calls that were
    made with their results, and the world left behind. *)
Inductive task_fails (p : pipeline) (out : string) (w : W) (msg : string)
    : list event -> W -> Prop :=
| Refused :
    pipeline_refusal W p = Some msg ->
    task_fails p out w msg [] w
| NotWritten (w1 : W) :
    pipeline_refusal W p = None ->
    sharp_toFile p out w = (Rejected msg, w1) ->
    task_fails p out w msg [EToFile p out (Rejected msg)] w1
| NotMeasured (w1 w2 : W) :
    pipeline_refusal W p = None ->
    sharp_toFile p out w = (Ok tt, w1) ->
    fs_stat out w1 = (Rejected msg, w2) ->
    task_fails p out w msg
      [EToFile p out (Ok tt); EStat out (Rejected msg)] w2.

End Accepted.
Arguments task_fails {W _} p out w msg _ _.
Arguments Refused {W _} p out w msg _.
Arguments NotWritten {W _} p out w msg w1 _ _.
Arguments NotMeasured {W _} p out w msg w1 w2 _ _ _.

(** ** The loops of lines 53-109, flattened

    The three nested loops run one step after the other: a file is
    announced, then each of its conversions is run. *)
Inductive step : Type :=
| Announce (file : string)
| Convert (file : string) (size : size_spec) (format : string).

Definition file_steps (cfg : config_t) (file : string) : list step :=
  Announce file ::
  flat_map (fun size => map (Convert file size) (formats cfg)) (sizes cfg).

Definition steps (cfg : config_t) (imageFiles : list string) : list step :=
  flat_map (file_steps cfg) imageFiles.

Definition run_step {W} `{Env W} (cfg : config_t) (s : step) : M nat W unit :=
  match s with
  | Announce file => console_log (LProcessing file)
  | Convert file size format =>
      thumbnail cfg (Path.name file) (Path.join (inputDir cfg) file)
        size format
  end.

Definition step_file (s : step) : option string :=
  match s with
  | Announce file => Some file
  | Convert _ _ _ => None
  end.

Definition step_name (s : step) : option string :=
  match s with
  | Announce _ => None
  | Convert file size format =>
      Some (Path.name file +:+ suffix size +:+ "." +:+ format)
  end.

Definition step_call (cfg : config_t) (s : step)
    : option (pipeline * string) :=
  match s with
  | Announce _ => None
  | Convert file size format =>
      Some (thumbnail_pipeline cfg (Path.join (inputDir cfg) file) size format,
            Path.join (outputDir cfg)
              (Path.name file +:+ suffix size +:+ "." +:+ format))
  end.

(** ** Relations and event lists used in the statements *)

(** The relation every task establishes between the counter and what it
    logs, closed under running further tasks. *)
Definition accounted (n : nat) (l l' : nat) (es : list event) : Prop :=
  l' = (l + length (thumbnails_logged es))%nat /\
  (length (thumbnails_logged es) + length (failures_logged es))%nat = n /\
  top_level_errors es = [] /\ exit_calls es = [] /\
  listed_dirs es = [] /\ removed_paths es = [].

(** What the loop maintains, step after step. *)
Definition converted (W : Type) `{Env W} (cfg : config_t) (ss : list step)
    (l l' : nat) (es : list event) : Prop :=
  tofile_calls es =
    List.filter (fun c => accepted W (fst c)) (omap (step_call cfg) ss) /\
  processed_files es = omap step_file ss /\
  reported_names es = omap step_name ss /\
  size_reports es = [] /\
  (failures_logged es = [] ->
   written_paths es = map snd (omap (step_call cfg) ss)) /\
  accounted (length (omap step_name ss)) l l' es.


Definition stats_ok (paths : list string) (sizes : list N) : list event :=
  zip_with (fun p v => EStat p (Ok v)) paths sizes.

Definition stats_settled (paths : list string) (rs : list (result N))
    : list event :=
  zip_with EStat paths rs.

(** Nothing in the list is a conversion, a per-file or per-task line, a
    top-level error or an exit. *)
Definition quiet (es : list event) : Prop :=
  tofile_calls es = [] /\ processed_files es = [] /\
  thumbnails_logged es = [] /\ failures_logged es = [] /\
  reported_names es = [] /\
  top_level_errors es = [] /\ exit_calls es = [] /\ removed_paths es = [].

(** Nothing in the list is a conversion or a per-file or per-task line. *)
Definition quiet_tail (es : list event) : Prop :=
  tofile_calls es = [] /\ processed_files es = [] /\
  reported_names es = [] /\ thumbnails_logged es = [] /\
  failures_logged es = [].

Definition scan_events (cfg : config_t) (files : list string) : list event :=
  [ EEnsureDir (outputDir cfg) (Ok tt);
    EReaddir (inputDir cfg) (Ok files);
    ELog (LFound (length (List.filter is_image_file files)));
    ELog (LOutputDirectory (outputDir cfg));
    ELog (LGeneratingSizes
            (map (fun s => (width s, height s, suffix s)) (sizes cfg)));
    ELog (LFormats (formats cfg));
    ELog LBlank ].

Definition complete_events (cfg : config_t) (t0 t1 : Z) (n : nat)
    : list event :=
  [ ENow t1; ELog LBlank;
    ELog (LComplete n (js_div (js_of_Z (t1 - t0)) (js_of_Z 1000)));
    ELog (LSavedTo (outputDir cfg)) ].

Definition report_line (o t : N) : event :=
  ELog (LSizeReduction (bytes_to_MB o) (bytes_to_MB t) (savings_percent o t)).


Definition error_row (format msg : string) : row :=
  {| row_format := format; row_size := CText "Error"; row_time := CText msg |}.

Definition measured_row (format : string) (size : N) (duration : Z) : row :=
  {| row_format := format;
     row_size := CKB (js_div (js_of_N size) (js_of_Z 1024));
     row_time := CMs duration |}.

Definition row_shape (r : row) : Prop :=
  (exists msg, r = error_row (row_format r) msg) \/
  (exists size duration, r = measured_row (row_format r) size duration).


(** What the loop of the benchmark maintains. *)
Definition benchmarked (W : Type) `{Env W} (cfg : config_t)
    (testImage : string) (fs : list string)
    (l l' : list row) (es : list event) : Prop :=
  exists rows,
    l' = l ++ rows /\
    tofile_calls es =
      List.filter (fun c => accepted W (fst c))
        (map (fun f => (benchmark_pipeline cfg testImage f, temp_path f)) fs) /\
    Forall row_shape rows /\
    removed_paths es = stat_ok_paths es /\
    top_level_errors es = [] /\ exit_calls es = [].


(** ** Further views, relations and worlds *)

(** The paths whose existence was checked. *)
Definition existence_checks (es : list event) : list string :=
  omap (fun e => match e with EPathExists p _ => Some p | _ => None end) es.

(** The removals that were rejected. *)
Definition rejected_removals (es : list event) : list (string * string) :=
  omap (fun e => match e with
                 | ERemove p (Rejected msg) => Some (p, msg)
                 | _ => None
                 end) es.

(** A conversion of a recognized file of the input directory, for a
    configured size and format, into the output directory. *)
Definition is_task_call (cfg : config_t) (c : pipeline * string) : Prop :=
  exists file size format,
    is_image_file file = true /\ In size (sizes cfg) /\
    In format (formats cfg) /\
    c = (thumbnail_pipeline cfg (Path.join (inputDir cfg) file) size format,
         Path.join (outputDir cfg)
           (output_filename (Path.name file) size format)).

(** What the loop of the benchmark maintains about the table and about the
    calls it makes. *)
Definition benchmark_footprint (fs : list string) (l l' : list row)
    (es : list event) : Prop :=
  exists rows,
    l' = l ++ rows /\
    length rows = (length fs + length (rejected_removals es))%nat /\
    Forall (fun r => In (row_format r) fs) rows /\
    Forall (fun f => In f (map row_format rows)) fs /\
    Forall (fun p => In p (map temp_path fs)) (removed_paths es) /\
    listed_dirs es = [] /\ existence_checks es = [].

(** The number of lines written by [console.log]. *)
Definition log_count (es : list event) : nat :=
  length (omap (fun e => match e with ELog ln => Some ln | _ => None end) es).

(** The size of the photograph cannot be queried. *)
Definition input_stat_refused : MemFS.t :=
  MemFS.make
    [ ("image", MemFS.Dir);
      ("image/a.jpg", MemFS.File 50000 (MemFS.Picture "a")) ]
    [ ("stat", "image/a.jpg", "EACCES: permission denied, stat") ].

(** The size of one thumbnail cannot be queried. *)
Definition thumb_stat_refused : MemFS.t :=
  MemFS.make
    [ ("image", MemFS.Dir);
      ("image/thumb", MemFS.Dir);
      ("image/a.jpg", MemFS.File 50000 (MemFS.Picture "a")) ]
    [ ("stat", "image/thumb/a.webp", "EACCES: permission denied, stat") ].

(** A configuration whose second size has no width. *)
Definition config_zero_width : config_t := {|
  inputDir := inputDir config;
  outputDir := outputDir config;
  sizes := [ {| width := 80; height := 80; suffix := "" |};
             {| width := 0; height := 160; suffix := "@2x" |} ];
  formats := formats config;
  quality := quality config
|}.

(** A configuration whose WebP quality is out of range. *)
Definition config_webp_quality_0 : config_t := {|
  inputDir := inputDir config;
  outputDir := outputDir config;
  sizes := sizes config;
  formats := formats config;
  quality := <["jpg" := 85%Z]> (<["webp" := 0%Z]> (<["avif" := 70%Z]> ∅))
|}.

(** The test image alone. *)
Definition only_test_image : MemFS.t :=
  MemFS.make
    [ ("image", MemFS.Dir);
      ("image/1.jpg", MemFS.File 4000 (MemFS.Picture "one")) ]
    [].

(** A configuration without any size. *)
Definition config_no_sizes : config_t := {|
  inputDir := inputDir config;
  outputDir := outputDir config;
  sizes := [];
  formats := formats config;
  quality := quality config
|}.

(** ** General facts about the monad *)

Section MonadFacts.
Context {L W : Type}.

Lemma bind_Ret {A B} (m : M L W A) (k : A -> M L W B) l w a :
  res (m l w) = Ret a ->
  bind m k l w =
    Run (res (k a (loc (m l w)) (wld (m l w))))
        (loc (k a (loc (m l w)) (wld (m l w))))
        (wld (k a (loc (m l w)) (wld (m l w))))
        (evs (m l w) ++ evs (k a (loc (m l w)) (wld (m l w)))).
Proof.
  intros E. unfold bind. destruct (m l w) as [o l1 w1 e1]. cbn in *. subst o.
  now destruct (k a l1 w1).
Qed.

Lemma bind_Throw {A B} (m : M L W A) (k : A -> M L W B) l w msg :
  res (m l w) = Throw msg ->
  bind m k l w = Run (Throw msg) (loc (m l w)) (wld (m l w)) (evs (m l w)).
Proof.
  intros E. unfold bind. destruct (m l w) as [o l1 w1 e1]. cbn in *.
  now subst o.
Qed.

Lemma bind_run {A B} (m : M L W A) (k : A -> M L W B) l w a l1 w1 e1 :
  m l w = Run (Ret a) l1 w1 e1 ->
  bind m k l w =
    Run (res (k a l1 w1)) (loc (k a l1 w1)) (wld (k a l1 w1))
        (e1 ++ evs (k a l1 w1)).
Proof. intros E. unfold bind. rewrite E. now destruct (k a l1 w1). Qed.

Lemma bind_run_Throw {A B} (m : M L W A) (k : A -> M L W B) l w msg l1 w1 e1 :
  m l w = Run (Throw msg) l1 w1 e1 ->
  bind m k l w = Run (Throw msg) l1 w1 e1.
Proof. intros E. unfold bind. now rewrite E. Qed.

(** A loop whose body always completes normally completes normally, and
    any relation between the items handled, the locals and the events
    that each iteration extends holds of the whole loop. *)
Lemma for_of_rel {A} (body : A -> M L W unit)
    (R : list A -> L -> L -> list event -> Prop) :
  (forall l, R [] l l []) ->
  (forall x xs l w,
      res (body x l w) = Ret tt /\
      forall l2 es, R xs (loc (body x l w)) l2 es ->
                    R (x :: xs) l l2 (evs (body x l w) ++ es)) ->
  forall xs l w,
    res (for_of xs body l w) = Ret tt /\
    R xs l (loc (for_of xs body l w)) (evs (for_of xs body l w)).
Proof.
  intros Hnil Hcons xs. induction xs as [|x xs IH]; intros l w.
  - split; [reflexivity | apply Hnil].
  - destruct (Hcons x xs l w) as [Hr Hstep].
    cbn [for_of]. rewrite (bind_Ret _ _ _ _ _ Hr). cbn [res loc evs].
    destruct (IH (loc (body x l w)) (wld (body x l w))) as [Hr' HR].
    split; [exact Hr' | apply Hstep, HR].
Qed.

End MonadFacts.

Lemma call_fn_run {L L' W A} (init : L') (m : M L' W A) (l : L) (w : W) :
  call_fn init m l w = Run (res (m init w)) l (wld (m init w)) (evs (m init w)).
Proof. unfold call_fn. now destruct (m init w). Qed.

(** ** The flattened loops *)

Section StepFacts.
Context {L W : Type}.

Lemma bind_assoc {A B C} (m : M L W A) (f : A -> M L W B)
    (g : B -> M L W C) l w :
  bind (bind m f) g l w = bind m (fun a => bind (f a) g) l w.
Proof.
  unfold bind. destruct (m l w) as [[a|msg|c] l1 w1 e1]; try reflexivity.
  destruct (f a l1 w1) as [[b|msg|c] l2 w2 e2]; try reflexivity.
  destruct (g b l2 w2) as [o l3 w3 e3]. now rewrite app_assoc.
Qed.

Lemma bind_ext {A B} (m : M L W A) (k k' : A -> M L W B) l w :
  (forall a l1 w1, k a l1 w1 = k' a l1 w1) -> bind m k l w = bind m k' l w.
Proof.
  intros Hk. unfold bind. destruct (m l w) as [[a|msg|c] l1 w1 e1];
    try reflexivity.
  now rewrite Hk.
Qed.

Lemma for_of_ext {A} (body body' : A -> M L W unit) xs l w :
  (forall x l1 w1, body x l1 w1 = body' x l1 w1) ->
  for_of xs body l w = for_of xs body' l w.
Proof.
  intros Hb. revert l w. induction xs as [|x xs IH]; intros l w;
    [reflexivity|].
  cbn [for_of]. unfold bind. rewrite Hb.
  destruct (body' x l w) as [[[]|msg|c] l1 w1 e1]; try reflexivity.
  now rewrite IH.
Qed.

Lemma for_of_app {A} (xs ys : list A) (body : A -> M L W unit) l w :
  for_of (xs ++ ys) body l w =
  bind (for_of xs body) (fun _ => for_of ys body) l w.
Proof.
  revert l w. induction xs as [|x xs IH]; intros l w; cbn [app for_of].
  - unfold bind, ret. now destruct (for_of ys body l w).
  - rewrite bind_assoc. apply bind_ext. intros _ l1 w1. apply IH.
Qed.

Lemma for_of_flat_map {A B} (f : A -> list B) (xs : list A)
    (body : B -> M L W unit) l w :
  for_of (flat_map f xs) body l w =
  for_of xs (fun x => for_of (f x) body) l w.
Proof.
  revert l w. induction xs as [|x xs IH]; intros l w; [reflexivity|].
  cbn [flat_map for_of]. rewrite for_of_app. apply bind_ext.
  intros _ l1 w1. apply IH.
Qed.

Lemma for_of_map {A B} (g : A -> B) (xs : list A)
    (body : B -> M L W unit) l w :
  for_of (map g xs) body l w = for_of xs (fun x => body (g x)) l w.
Proof.
  revert l w. induction xs as [|x xs IH]; intros l w; [reflexivity|].
  cbn [map for_of]. apply bind_ext. intros _ l1 w1. apply IH.
Qed.

(** A loop whose body always completes normally, cut at one item. *)
Lemma for_of_split {A} (body : A -> M L W unit) xs y zs l w :
  (forall x l w, res (body x l w) = Ret tt) ->
  let rb := for_of xs body l w in
  let rt := body y (loc rb) (wld rb) in
  let ra := for_of zs body (loc rt) (wld rt) in
  for_of (xs ++ y :: zs) body l w =
    Run (res ra) (loc ra) (wld ra) (evs rb ++ evs rt ++ evs ra).
Proof.
  intros Hbody rb rt ra.
  assert (Hrb : res rb = Ret tt).
  { apply (for_of_rel body (fun _ _ _ _ => True)); [easy|].
    intros x xs' l' w'. split; [apply Hbody | easy]. }
  rewrite for_of_app. rewrite (bind_Ret _ _ _ _ _ Hrb). fold rb.
  cbn [for_of]. rewrite (bind_Ret _ _ _ _ _ (Hbody y (loc rb) (wld rb))).
  fold rt. fold ra. cbn [res loc wld evs]. reflexivity.
Qed.

End StepFacts.

Lemma omap_flat_map {A B C} (h : B -> option C) (g : A -> list B)
    (xs : list A) :
  omap h (flat_map g xs) = flat_map (fun x => omap h (g x)) xs.
Proof.
  induction xs as [|x xs IH]; [reflexivity|].
  cbn [flat_map]. now rewrite omap_app, IH.
Qed.

Lemma omap_map_Some {A B C} (h : B -> option C) (g : A -> B) (k : A -> C)
    (xs : list A) :
  (forall x, h (g x) = Some (k x)) -> omap h (map g xs) = map k xs.
Proof.
  intros Hh. induction xs as [|x xs IH]; [reflexivity|].
  cbn [map]. change (omap h (g x :: map g xs))
    with (match h (g x) with Some c => c :: omap h (map g xs)
                           | None => omap h (map g xs) end).
  now rewrite Hh, IH.
Qed.

Lemma omap_map_None {A B C} (h : B -> option C) (g : A -> B)
    (xs : list A) :
  (forall x, h (g x) = None) -> omap h (map g xs) = [].
Proof.
  intros Hh. induction xs as [|x xs IH]; [reflexivity|].
  cbn [map]. change (omap h (g x :: map g xs))
    with (match h (g x) with Some c => c :: omap h (map g xs)
                           | None => omap h (map g xs) end).
  now rewrite Hh, IH.
Qed.

Lemma flat_map_single {A B} (f : A -> B) (l : list A) :
  flat_map (fun x => [f x]) l = map f l.
Proof. induction l as [|x l IH]; cbn; [reflexivity | now rewrite IH]. Qed.

Lemma flat_map_nil {A B} (l : list A) :
  flat_map (fun _ : A => @nil B) l = [].
Proof. induction l as [|x l IH]; [reflexivity | exact IH]. Qed.

Lemma flat_map_ext_eq {A B} (f g : A -> list B) (l : list A) :
  (forall x, f x = g x) -> flat_map f l = flat_map g l.
Proof.
  intros Hfg. induction l as [|x l IH]; [reflexivity|].
  cbn [flat_map]. now rewrite Hfg, IH.
Qed.

Lemma flat_map_map_length {A B C} (g : A -> B -> C) (xs : list A)
    (ys : list B) :
  length (flat_map (fun x => map (g x) ys) xs) = (length xs * length ys)%nat.
Proof.
  induction xs as [|x xs IH]; [reflexivity|].
  cbn [flat_map]. rewrite length_app, length_map, IH. reflexivity.
Qed.

Lemma task_calls_length (cfg : config_t) (imageFiles : list string) :
  length (task_calls cfg imageFiles) =
  (length imageFiles * (length (sizes cfg) * length (formats cfg)))%nat.
Proof.
  unfold task_calls. induction imageFiles as [|f fs IH]; [reflexivity|].
  cbn [flat_map]. rewrite length_app, IH, flat_map_map_length. reflexivity.
Qed.

Lemma task_names_length (cfg : config_t) (imageFiles : list string) :
  length (task_names cfg imageFiles) =
  (length imageFiles * (length (sizes cfg) * length (formats cfg)))%nat.
Proof.
  unfold task_names. induction imageFiles as [|f fs IH]; [reflexivity|].
  cbn [flat_map]. rewrite length_app, IH, flat_map_map_length. reflexivity.
Qed.

(** The views of the steps of a run are its files and its tasks. *)
Lemma steps_files (cfg : config_t) (imageFiles : list string) :
  omap step_file (steps cfg imageFiles) = imageFiles.
Proof.
  unfold steps. rewrite omap_flat_map.
  rewrite (flat_map_ext_eq _ (fun file => [file])).
  - rewrite flat_map_single. apply map_id.
  - intros file. unfold file_steps.
    change (omap step_file (Announce file :: ?l))
      with (file :: omap step_file l).
    rewrite omap_flat_map.
    rewrite (flat_map_ext_eq _ (fun _ => [])), flat_map_nil; [reflexivity|].
    intros size. now apply omap_map_None.
Qed.

Lemma steps_names (cfg : config_t) (imageFiles : list string) :
  omap step_name (steps cfg imageFiles) = task_names cfg imageFiles.
Proof.
  unfold steps, task_names. rewrite omap_flat_map.
  apply flat_map_ext_eq. intros file. unfold file_steps.
  change (omap step_name (Announce file :: ?l)) with (omap step_name l).
  rewrite omap_flat_map. apply flat_map_ext_eq. intros size.
  now apply omap_map_Some.
Qed.

Lemma steps_calls (cfg : config_t) (imageFiles : list string) :
  omap (step_call cfg) (steps cfg imageFiles) = task_calls cfg imageFiles.
Proof.
  unfold steps, task_calls. rewrite omap_flat_map.
  apply flat_map_ext_eq. intros file. unfold file_steps.
  change (omap (step_call cfg) (Announce file :: ?l))
    with (omap (step_call cfg) l).
  rewrite omap_flat_map. apply flat_map_ext_eq. intros size.
  now apply omap_map_Some.
Qed.

(** ** The conversion loop *)

Section LoopFacts.
Context {W : Type} `{Env W}.
Variable cfg : config_t.


(** Lines 65-93 either throw the message of the first refused call, or
    give the pipeline described by [thumbnail_pipeline]; nothing is read or
    written. *)
Lemma build_thumbnail_run {L} inputPath size format (l : L) (w : W) :
  build_thumbnail cfg inputPath size format l w =
  match pipeline_refusal W (thumbnail_pipeline cfg inputPath size format) with
  | Some msg => Run (Throw msg) l w []
  | None => Run (Ret (thumbnail_pipeline cfg inputPath size format)) l w []
  end.
Proof.
  unfold build_thumbnail, pipeline_refusal, thumbnail_pipeline,
    select_encoder, switch_format, new_sharp, call_resize, call_encoder,
    checked, bind, throw, ret.
  destruct (String.eqb format "jpg" || String.eqb format "jpeg");
    [|destruct (String.eqb format "webp");
      [|destruct (String.eqb format "avif")]];
    cbn;
    (destruct (sharp_input_error inputPath); cbn; [reflexivity|]);
    (destruct (sharp_resize_error _); cbn; [reflexivity|]);
    try (destruct (sharp_encoder_error _); cbn); reflexivity.
Qed.

(** A task that fails is caught: its line is logged, the counter is not
    touched, and the task returns normally. *)
Lemma thumbnail_fails basename inputPath size format (l : nat) (w : W)
    msg calls w' :
  let p := thumbnail_pipeline cfg inputPath size format in
  let name := output_filename basename size format in
  let out := Path.join (outputDir cfg) name in
  task_fails p out w msg calls w' ->
  thumbnail cfg basename inputPath size format l w =
    Run (Ret tt) l w' (calls ++ [ELog (LFailed name msg)]).
Proof.
  intros p name out Hf.
  pose proof (build_thumbnail_run (L:=nat) inputPath size format l w) as Hb.
  fold p in Hb. unfold thumbnail. fold name. fold out. unfold try_catch.
  inversion Hf as [Hr | w1 Hr Ht | w1 w2 Hr Ht Hs]; subst; rewrite Hr in Hb.
  - rewrite (bind_run_Throw _ _ _ _ _ _ _ _ Hb). reflexivity.
  - rewrite (bind_run _ _ _ _ _ _ _ _ Hb).
    unfold bind, toFile, await. rewrite Ht. reflexivity.
  - rewrite (bind_run _ _ _ _ _ _ _ _ Hb).
    unfold bind, toFile, stat_size, await. rewrite Ht. cbn. rewrite Hs.
    reflexivity.
Qed.

(** A task whose pipeline is accepted, written and measured is logged and
    counted. *)
Lemma thumbnail_writes basename inputPath size format (l : nat) (w w1 w2 : W)
    sz :
  let p := thumbnail_pipeline cfg inputPath size format in
  let name := output_filename basename size format in
  let out := Path.join (outputDir cfg) name in
  pipeline_refusal W p = None ->
  sharp_toFile p out w = (Ok tt, w1) ->
  fs_stat out w1 = (Ok sz, w2) ->
  thumbnail cfg basename inputPath size format l w =
    Run (Ret tt) (S l) w2
        [EToFile p out (Ok tt); EStat out (Ok sz);
         ELog (LThumbnail name (bytes_to_MB sz))].
Proof.
  intros p name out Hr Ht Hs.
  pose proof (build_thumbnail_run (L:=nat) inputPath size format l w) as Hb.
  fold p in Hb. rewrite Hr in Hb.
  unfold thumbnail. fold name. fold out. unfold try_catch.
  rewrite (bind_run _ _ _ _ _ _ _ _ Hb).
  unfold bind, toFile, stat_size, await, console_log, emit, get_local,
    set_local.
  rewrite Ht. cbn. rewrite Hs. reflexivity.
Qed.

(** The two ways one task can go. *)
Lemma thumbnail_cases basename inputPath size format (l : nat) (w : W) :
  let p := thumbnail_pipeline cfg inputPath size format in
  let name := output_filename basename size format in
  let out := Path.join (outputDir cfg) name in
  let r := thumbnail cfg basename inputPath size format l w in
  (exists msg calls w',
      task_fails p out w msg calls w' /\
      r = Run (Ret tt) l w' (calls ++ [ELog (LFailed name msg)]))
  \/ (exists sz w1 w2,
      pipeline_refusal W p = None /\
      sharp_toFile p out w = (Ok tt, w1) /\
      fs_stat out w1 = (Ok sz, w2) /\
      r = Run (Ret tt) (S l) w2
            [EToFile p out (Ok tt); EStat out (Ok sz);
             ELog (LThumbnail name (bytes_to_MB sz))]).
Proof.
  intros p name out r. subst r.
  destruct (pipeline_refusal W p) as [msg|] eqn:Hr.
  { left. exists msg, [], w. split; [now apply Refused|].
    apply thumbnail_fails. now apply Refused. }
  destruct (sharp_toFile p out w) as [[[]|msg] w1] eqn:Ht.
  2:{ left. exists msg, [EToFile p out (Rejected msg)], w1.
      split; [now apply NotWritten|].
      apply thumbnail_fails. now apply NotWritten. }
  destruct (fs_stat out w1) as [[sz|msg] w2] eqn:Hs.
  - right. exists sz, w1, w2. repeat (split; [assumption || reflexivity|]).
    now apply thumbnail_writes with (w1 := w1).
  - left. exists msg, [EToFile p out (Ok tt); EStat out (Rejected msg)], w2.
    split; [now apply NotMeasured with (w1 := w1)|].
    apply thumbnail_fails. now apply NotMeasured with (w1 := w1).
Qed.

Lemma thumbnail_returns basename inputPath size format (l : nat) (w : W) :
  res (thumbnail cfg basename inputPath size format l w) = Ret tt.
Proof.
  destruct (thumbnail_cases basename inputPath size format l w)
    as [(msg & calls & w' & _ & ->) | (sz & w1 & w2 & _ & _ & _ & ->)];
    reflexivity.
Qed.

Lemma run_step_returns (s : step) (l : nat) (w : W) :
  res (run_step cfg s l w) = Ret tt.
Proof. destruct s; [reflexivity | apply thumbnail_returns]. Qed.

Lemma accounted_app n1 n2 l l1 l2 e1 e2 :
  accounted n1 l l1 e1 -> accounted n2 l1 l2 e2 ->
  accounted (n1 + n2) l l2 (e1 ++ e2).
Proof.
  unfold accounted, thumbnails_logged, failures_logged,
    top_level_errors, exit_calls, listed_dirs, removed_paths.
  intros (A1 & A2 & A4 & A5 & A6 & A7) (B1 & B2 & B4 & B5 & B6 & B7).
  rewrite !omap_app, !length_app, A4, B4, A5, B5, A6, B6, A7, B7.
  repeat split; try reflexivity; lia.
Qed.

Lemma converted_app ss1 ss2 l l1 l2 e1 e2 :
  converted W cfg ss1 l l1 e1 -> converted W cfg ss2 l1 l2 e2 ->
  converted W cfg (ss1 ++ ss2) l l2 (e1 ++ e2).
Proof.
  intros (T1 & P1 & N1 & S1 & C1 & A1) (T2 & P2 & N2 & S2 & C2 & A2).
  unfold converted. rewrite !omap_app, length_app, List.filter_app, map_app.
  split; [unfold tofile_calls in *; now rewrite omap_app, T1, T2|].
  split; [unfold processed_files in *; now rewrite omap_app, P1, P2|].
  split; [unfold reported_names in *; now rewrite omap_app, N1, N2|].
  split; [unfold size_reports in *; now rewrite omap_app, S1, S2|].
  split; [|eapply accounted_app; eassumption].
  intros Hf. unfold failures_logged in Hf. rewrite omap_app in Hf.
  apply app_eq_nil in Hf. destruct Hf as [Hf1 Hf2].
  unfold written_paths in *. rewrite omap_app, (C1 Hf1), (C2 Hf2).
  reflexivity.
Qed.

Lemma task_fails_quiet (p : pipeline) out (w : W) msg calls w' :
  task_fails p out w msg calls w' ->
  tofile_calls calls
    = List.filter (fun c => accepted W (fst c)) [(p, out)] /\
  processed_files calls = [] /\ reported_names calls = [] /\
  size_reports calls = [] /\ thumbnails_logged calls = [] /\
  failures_logged calls = [] /\ top_level_errors calls = [] /\
  exit_calls calls = [] /\ listed_dirs calls = [] /\ removed_paths calls = [] /\
  stat_ok_paths calls = [] /\ existence_checks calls = [] /\
  rejected_removals calls = [].
Proof.
  intros Hf. cbn [List.filter fst]. unfold accepted.
  inversion Hf as [Hr | w1 Hr Ht | w1 w2 Hr Ht Hs]; subst; rewrite Hr;
    repeat split; reflexivity.
Qed.

Lemma run_step_converted (s : step) (l : nat) (w : W) :
  converted W cfg [s] l (loc (run_step cfg s l w)) (evs (run_step cfg s l w)).
Proof.
  destruct s as [file | file size format].
  { unfold converted, accounted. cbn. repeat split; try reflexivity. lia. }
  cbn [run_step].
  destruct (thumbnail_cases (Path.name file) (Path.join (inputDir cfg) file)
              size format l w)
    as [(msg & calls & w' & Hf & ->) | (sz & w1 & w2 & Hr & _ & _ & ->)];
    cbn [loc evs].
  - destruct (task_fails_quiet _ _ _ _ _ _ Hf)
      as (T & P & N & S & Th & F & Te & Ex & Ld & Rm & _).
    unfold converted, accounted.
    unfold tofile_calls, processed_files, reported_names, size_reports,
      thumbnails_logged, failures_logged, top_level_errors, exit_calls,
      listed_dirs, removed_paths, written_paths in *.
    rewrite !omap_app, T, P, N, S, Th, F, Te, Ex, Ld, Rm.
    cbn. repeat split; try reflexivity; try lia;
      [apply app_nil_r | intros; discriminate].
  - unfold converted, accounted. cbn. unfold accepted. rewrite Hr.
    repeat split; try reflexivity. lia.
Qed.

(** The whole loop, step after step. *)
Lemma steps_spec ss (l : nat) (w : W) :
  let r := for_of ss (run_step cfg) l w in
  res r = Ret tt /\ converted W cfg ss l (loc r) (evs r).
Proof.
  apply (for_of_rel (run_step cfg) (converted W cfg)).
  - intros l0. unfold converted, accounted. cbn.
    repeat split; try reflexivity. lia.
  - clear ss l w. intros s ss l w. split; [apply run_step_returns|].
    intros l2 es Hc.
    apply (converted_app [s] ss l (loc (run_step cfg s l w)) l2);
      [apply run_step_converted | exact Hc].
Qed.

(** The nested loops of lines 53-109 run the steps in order. *)
Lemma loop_as_steps imageFiles (l : nat) (w : W) :
  for_of imageFiles (process_file cfg) l w =
  for_of (steps cfg imageFiles) (run_step cfg) l w.
Proof.
  unfold steps. rewrite for_of_flat_map. apply for_of_ext.
  intros file l1 w1. unfold process_file, file_steps. cbn [for_of run_step].
  apply bind_ext. intros _ l2 w2. rewrite for_of_flat_map.
  apply for_of_ext. intros size l3 w3. now rewrite for_of_map.
Qed.

(** The whole loop of lines 53-109. *)
Lemma process_files_spec imageFiles l w :
  let r := for_of imageFiles (process_file cfg) l w in
  res r = Ret tt /\
  tofile_calls (evs r) = accepted_calls W cfg imageFiles /\
  processed_files (evs r) = imageFiles /\
  accounted (length imageFiles * (length (sizes cfg) * length (formats cfg)))
    l (loc r) (evs r).
Proof.
  intros r. subst r. rewrite loop_as_steps.
  destruct (steps_spec (steps cfg imageFiles) l w)
    as (Hr & T & P & _ & _ & _ & A). cbn zeta in *.
  rewrite steps_calls in T. rewrite steps_files in P.
  rewrite steps_names, task_names_length in A.
  split; [exact Hr|]. split; [exact T|]. split; [exact P | exact A].
Qed.

Lemma process_files_names imageFiles (l : nat) (w : W) :
  reported_names (evs (for_of imageFiles (process_file cfg) l w)) =
  task_names cfg imageFiles.
Proof.
  rewrite loop_as_steps.
  destruct (steps_spec (steps cfg imageFiles) l w)
    as (_ & _ & _ & N & _). cbn zeta in *.
  now rewrite steps_names in N.
Qed.

(** The conversion loop prints no size-reduction line. *)
Lemma loop_size_reports imageFiles (l : nat) (w : W) :
  size_reports (evs (for_of imageFiles (process_file cfg) l w)) = [].
Proof.
  rewrite loop_as_steps.
  now destruct (steps_spec (steps cfg imageFiles) l w)
    as (_ & _ & _ & _ & S & _).
Qed.

End LoopFacts.

(** ** The reporting step and the whole routine *)

Section RoutineFacts.
Context {W : Type} `{Env W}.
Variable cfg : config_t.

Lemma quiet_app e1 e2 : quiet e1 -> quiet e2 -> quiet (e1 ++ e2).
Proof.
  unfold quiet, tofile_calls, processed_files, thumbnails_logged,
    failures_logged, reported_names, top_level_errors, exit_calls,
    removed_paths.
  intros (A1 & A2 & A3 & A4 & A5 & A6 & A7 & A8)
         (B1 & B2 & B3 & B4 & B5 & B6 & B7 & B8).
  rewrite !omap_app, A1, A2, A3, A4, A5, A6, A7, A8,
    B1, B2, B3, B4, B5, B6, B7, B8.
  repeat split; reflexivity.
Qed.

Lemma quiet_stats paths rs : quiet (stats_settled paths rs).
Proof.
  revert rs. induction paths as [|p ps IH]; intros [|r rs];
    try (repeat split; reflexivity).
  change (stats_settled (p :: ps) (r :: rs))
    with ([EStat p r] ++ stats_settled ps rs).
  apply quiet_app; [repeat split; reflexivity | apply IH].
Qed.

Lemma size_reports_stats paths rs : size_reports (stats_settled paths rs) = [].
Proof.
  revert rs. induction paths as [|p ps IH]; intros [|r rs]; try reflexivity.
  cbn. apply IH.
Qed.

Lemma all_values_Ok (rs : list (result N)) vs :
  all_values rs = Ok vs -> rs = map Ok vs.
Proof.
  revert vs. induction rs as [|[a|msg] rs IH]; intros vs E; cbn in E.
  - now inversion E.
  - destruct (all_values rs) as [l|msg]; [|discriminate].
    inversion E; subst. cbn. f_equal. now apply IH.
  - discriminate.
Qed.

Lemma stats_settled_ok paths vs :
  stats_settled paths (map Ok vs) = stats_ok paths vs.
Proof.
  revert vs. induction paths as [|p ps IH]; intros [|v vs]; cbn; try reflexivity.
  f_equal. apply IH.
Qed.

(** Every size query of the array is issued; the locals are untouched. *)
Lemma settle_all_stats {L} (paths : list string) (l : L) (w : W) :
  exists rs, 
    length rs = length paths /\
    res (settle_all (map stat_size paths) l w) = Ret rs /\
    loc (settle_all (map stat_size paths) l w) = l /\
    evs (settle_all (map stat_size paths) l w) = stats_settled paths rs.
Proof.
  revert w. induction paths as [|p ps IH]; intros w.
  - exists []. repeat split; reflexivity.
  - cbn [map settle_all].
    assert (Hs : exists r w1,
      settle (stat_size p) l w = Run (Ret r) l w1 [EStat p r]).
    { unfold settle, try_catch, bind, stat_size, await, ret.
      destruct (fs_stat p w) as [[v|msg] w1]; cbn; eauto. }
    destruct Hs as (r & w1 & Hs).
    destruct (IH w1) as (rs & Hlen & Hres & Hloc & Hevs).
    exists (r :: rs). rewrite (bind_run _ _ _ _ _ _ _ _ Hs).
    cbn [res loc wld evs].
    rewrite (bind_Ret _ _ _ _ _ Hres). cbn [res loc wld evs ret].
    rewrite Hloc, Hevs, app_nil_r. cbn. repeat split; try reflexivity.
    now rewrite Hlen.
Qed.

Lemma promise_all_stats {L} (paths : list string) (l : L) (w : W) :
  let r := promise_all (map stat_size paths) l w in
  exists rs,
    length rs = length paths /\
    evs r = stats_settled paths rs /\ loc r = l /\
    ((exists vs, res r = Ret vs /\ rs = map Ok vs)
     \/ exists msg, res r = Throw msg).
Proof.
  intros r. subst r. unfold promise_all.
  destruct (settle_all_stats paths l w) as (rs & Hlen & Hres & Hloc & Hevs).
  exists rs. rewrite (bind_Ret _ _ _ _ _ Hres).
  destruct (all_values rs) as [vs|msg] eqn:E; cbn [res loc wld evs ret throw];
    rewrite Hloc, Hevs, app_nil_r; repeat split; try assumption.
  - left. exists vs. split; [reflexivity | now apply all_values_Ok].
  - right. eauto.
Qed.

Lemma await_cases {L A} (call : W -> result A * W) (ev : result A -> event)
    (l : L) (w : W) :
  (exists a, fst (call w) = Ok a /\
     await call ev l w = Run (Ret a) l (snd (call w)) [ev (Ok a)])
  \/ (exists msg, fst (call w) = Rejected msg /\
     await call ev l w = Run (Throw msg) l (snd (call w)) [ev (Rejected msg)]).
Proof.
  unfold await. destruct (call w) as [[a|msg] w1]; cbn; eauto.
Qed.

(** The reporting step, lines 119-137. *)
Lemma report_savings_spec imageFiles (l : nat) (w : W) :
  let r := report_savings cfg imageFiles l w in
  loc r = l /\ quiet (evs r) /\
  ((exists originalSizes thumbFiles thumbSizes,
      res r = Ret tt /\
      length originalSizes = length imageFiles /\
      length thumbSizes = length thumbFiles /\
      evs r =
        stats_ok (map (Path.join (inputDir cfg)) imageFiles) originalSizes
        ++ [EReaddir (outputDir cfg) (Ok thumbFiles)]
        ++ stats_ok (map (Path.join (outputDir cfg)) thumbFiles) thumbSizes
        ++ [report_line (sum_sizes originalSizes) (sum_sizes thumbSizes)])
   \/ (exists msg, res r = Throw msg /\ size_reports (evs r) = [])).
Proof.
  intros r. subst r. unfold report_savings.
  rewrite <- (map_map (Path.join (inputDir cfg)) stat_size).
  set (ipaths := map (Path.join (inputDir cfg)) imageFiles).
  destruct (promise_all_stats ipaths l w)
    as (rs & Hlen & Hevs & Hl & [(vs & Hres & ->) | (msg & Hres)]);
    cbn zeta in *.
  2:{ rewrite (bind_Throw _ _ _ _ _ Hres). cbn [res loc wld evs].
      rewrite Hevs. split; [exact Hl|]. split; [apply quiet_stats|].
      right. exists msg. split; [reflexivity | apply size_reports_stats]. }
  rewrite (bind_Ret _ _ _ _ _ Hres). cbn [res loc wld evs].
  rewrite Hl, Hevs. rewrite length_map in Hlen. unfold ipaths in Hlen at 1.
  rewrite length_map in Hlen.
  set (w1 := wld (promise_all (map stat_size ipaths) l w)).
  assert (Hq1 : quiet (stats_settled ipaths (map Ok vs))) by apply quiet_stats.
  assert (Hqd : quiet [EReaddir (outputDir cfg) (Ok (A:=list string) [])])
    by (repeat split; reflexivity).
  unfold readdir.
  destruct (await_cases (L:=nat) (fs_readdir (outputDir cfg))
              (EReaddir (outputDir cfg)) l w1)
    as [(thumbFiles & _ & E) | (msg & _ & E)].
  2:{ rewrite (bind_run_Throw _ _ _ _ _ _ _ _ E). cbn [res loc wld evs].
      split; [reflexivity|].
      split; [apply quiet_app; [exact Hq1 | repeat split; reflexivity]|].
      right. exists msg. split; [reflexivity|].
      unfold size_reports. rewrite omap_app.
      fold (size_reports (stats_settled ipaths (map Ok vs))).
      rewrite size_reports_stats. reflexivity. }
  rewrite (bind_run _ _ _ _ _ _ _ _ E). cbn [res loc wld evs].
  rewrite <- (map_map (Path.join (outputDir cfg)) stat_size).
  set (opaths := map (Path.join (outputDir cfg)) thumbFiles).
  set (w2 := snd (fs_readdir (outputDir cfg) w1)).
  destruct (promise_all_stats opaths l w2)
    as (rs2 & Hlen2 & Hevs2 & Hl2 & [(ts & Hres2 & ->) | (msg & Hres2)]);
    cbn zeta in *.
  2:{ rewrite (bind_Throw _ _ _ _ _ Hres2). cbn [res loc wld evs].
      rewrite Hevs2. split; [exact Hl2|].
      split; [apply quiet_app; [exact Hq1|];
              apply (quiet_app [_]); [repeat split; reflexivity |
                                      apply quiet_stats]|].
      right. exists msg. split; [reflexivity|].
      unfold size_reports. rewrite !omap_app.
      fold (size_reports (stats_settled ipaths (map Ok vs))).
      fold (size_reports (stats_settled opaths rs2)).
      rewrite !size_reports_stats. reflexivity. }
  rewrite (bind_Ret _ _ _ _ _ Hres2). cbn [res loc wld evs console_log emit].
  rewrite Hl2, Hevs2. rewrite length_map in Hlen2. unfold opaths in Hlen2 at 1.
  rewrite length_map in Hlen2.
  split; [reflexivity|].
  split.
  { apply quiet_app; [exact Hq1|].
    apply (quiet_app [_]); [repeat split; reflexivity|].
    apply quiet_app; [apply quiet_stats | repeat split; reflexivity]. }
  left. exists vs, thumbFiles, ts. rewrite !stats_settled_ok.
  repeat split; try reflexivity; congruence.
Qed.

Lemma scan_input_ok (l : nat) (w w1 w2 : W) files :
  fs_ensureDir (outputDir cfg) w = (Ok tt, w1) ->
  fs_readdir (inputDir cfg) w1 = (Ok files, w2) ->
  scan_input cfg l w =
    Run (Ret (List.filter is_image_file files)) l w2 (scan_events cfg files).
Proof.
  intros E1 E2.
  unfold scan_input, bind, ensureDir, readdir, await, console_log, emit, ret.
  rewrite E1. cbn. rewrite E2. reflexivity.
Qed.

Lemma scan_input_no_output_dir (l : nat) (w w1 : W) msg :
  fs_ensureDir (outputDir cfg) w = (Rejected msg, w1) ->
  scan_input cfg l w =
    Run (Throw msg) l w1 [EEnsureDir (outputDir cfg) (Rejected msg)].
Proof.
  intros E1. unfold scan_input, bind, ensureDir, await. now rewrite E1.
Qed.

Lemma scan_input_no_listing (l : nat) (w w1 w2 : W) msg :
  fs_ensureDir (outputDir cfg) w = (Ok tt, w1) ->
  fs_readdir (inputDir cfg) w1 = (Rejected msg, w2) ->
  scan_input cfg l w =
    Run (Throw msg) l w2
        [EEnsureDir (outputDir cfg) (Ok tt);
         EReaddir (inputDir cfg) (Rejected msg)].
Proof.
  intros E1 E2. unfold scan_input, bind, ensureDir, readdir, await.
  rewrite E1. cbn. now rewrite E2.
Qed.

(** Lines 50-116: the loop between two readings of the clock. *)
Lemma convert_all_run imageFiles (l : nat) (w : W) :
  let t0 := fst (Date_now w) in
  let rl := for_of imageFiles (process_file cfg) 0%nat (snd (Date_now w)) in
  let t1 := fst (Date_now (wld rl)) in
  convert_all cfg imageFiles l w =
    Run (Ret tt) (loc rl) (snd (Date_now (wld rl)))
        (ENow t0 :: evs rl ++ complete_events cfg t0 t1 (loc rl)).
Proof.
  intros t0 rl t1. subst t0 t1.
  destruct (process_files_spec cfg imageFiles 0%nat (snd (Date_now w)))
    as (Hr & _). cbn zeta in Hr. fold rl in Hr.
  unfold convert_all, bind, set_local, now, console_log, emit, get_local.
  destruct (Date_now w) as [t0 w1]. cbn [fst snd] in *. fold rl.
  destruct rl as [o l1 w2 e1]. cbn [res loc wld evs] in *. subst o.
  destruct (Date_now w2) as [t1 w3]. cbn [fst snd].
  unfold complete_events. reflexivity.
Qed.

(** How the [try] block unfolds once the two directories have been
    obtained: the banner, the loop, the completion lines and the
    reporting step. *)
Lemma generateThumbnails_try_run (w w1 w2 : W) files :
  fs_ensureDir (outputDir cfg) w = (Ok tt, w1) ->
  fs_readdir (inputDir cfg) w1 = (Ok files, w2) ->
  let imageFiles := List.filter is_image_file files in
  let t0 := fst (Date_now w2) in
  let rl := for_of imageFiles (process_file cfg) 0%nat (snd (Date_now w2)) in
  let t1 := fst (Date_now (wld rl)) in
  let rr := report_savings cfg imageFiles (loc rl) (snd (Date_now (wld rl))) in
  generateThumbnails_try cfg 0%nat w =
    Run (res rr) (loc rr) (wld rr)
        (scan_events cfg files ++ ENow t0 :: evs rl
         ++ complete_events cfg t0 t1 (loc rl) ++ evs rr).
Proof.
  intros E1 E2 imageFiles t0 rl t1 rr.
  unfold generateThumbnails_try.
  rewrite (bind_run _ _ _ _ _ _ _ _ (scan_input_ok 0%nat w w1 w2 files E1 E2)).
  fold imageFiles.
  rewrite (bind_run _ _ _ _ _ _ _ _ (convert_all_run imageFiles 0%nat w2)).
  fold t0. fold rl. fold t1. fold rr. cbn [res loc wld evs].
  f_equal. cbn. now rewrite <- !app_assoc.
Qed.

(** The routine itself: the [try] block with the [catch] block behind it. *)
Lemma generateThumbnails_outcome {L} (l : L) (w : W) :
  let rt := generateThumbnails_try cfg 0%nat w in
  let r := generateThumbnails cfg l w in
  loc r = l /\ wld r = wld rt /\
  match res rt with
  | Ret _ => res r = Ret tt /\ evs r = evs rt
  | Throw msg => res r = Exit 1 /\
                 evs r = evs rt ++ [EErrorMessage msg; EExit 1]
  | Exit c => res r = Exit c /\ evs r = evs rt
  end.
Proof.
  intros rt r. subst r. unfold generateThumbnails.
  rewrite call_fn_run. cbn [res loc wld evs]. fold rt.
  unfold try_catch. fold rt. destruct rt as [[[]|msg|c] l1 w1 e1];
    cbn; auto.
Qed.

End RoutineFacts.

(** ** The benchmark *)

Section BenchmarkFacts.
Context {W : Type} `{Env W}.
Variable cfg : config_t.

Lemma bind_now {L A} (k : Z -> M L W A) (l : L) (w : W) :
  bind now k l w =
    Run (res (k (fst (Date_now w)) l (snd (Date_now w))))
        (loc (k (fst (Date_now w)) l (snd (Date_now w))))
        (wld (k (fst (Date_now w)) l (snd (Date_now w))))
        (ENow (fst (Date_now w)) :: evs (k (fst (Date_now w)) l (snd (Date_now w)))).
Proof.
  unfold bind, now. destruct (Date_now w) as [t0 w0]. cbn [fst snd].
  now destruct (k t0 l w0).
Qed.

(** Lines 161-175 either throw the message of the first refused call, or
    give the pipeline described by [benchmark_pipeline]. *)
Lemma build_benchmark_run {L} testImage format (l : L) (w : W) :
  build_benchmark cfg testImage format l w =
  match pipeline_refusal W (benchmark_pipeline cfg testImage format) with
  | Some msg => Run (Throw msg) l w []
  | None => Run (Ret (benchmark_pipeline cfg testImage format)) l w []
  end.
Proof.
  unfold build_benchmark, pipeline_refusal, benchmark_pipeline,
    benchmark_encoder, switch_benchmark, new_sharp, call_resize,
    call_encoder, checked, bind, throw, ret.
  destruct (String.eqb format "jpg");
    [|destruct (String.eqb format "webp");
      [|destruct (String.eqb format "avif")]];
    cbn;
    (destruct (sharp_input_error testImage); cbn; [reflexivity|]);
    (destruct (sharp_resize_error _); cbn; [reflexivity|]);
    try (destruct (sharp_encoder_error _); cbn); reflexivity.
Qed.

(** An iteration that fails records the error as a row and returns
    normally; [fs.remove] is not reached. *)
Lemma benchmark_format_fails testImage format (l : list row) (w : W)
    msg calls w' :
  let p := benchmark_pipeline cfg testImage format in
  let tmp := temp_path format in
  task_fails p tmp (snd (Date_now w)) msg calls w' ->
  benchmark_format cfg testImage format l w =
    Run (Ret tt) (l ++ [error_row format msg]) w'
        (ENow (fst (Date_now w)) :: calls).
Proof.
  intros p tmp Hf.
  pose proof (build_benchmark_run (L:=list row) testImage format l
                (snd (Date_now w))) as Hb.
  fold p in Hb. unfold benchmark_format. rewrite bind_now. fold tmp.
  unfold try_catch.
  inversion Hf as [Hr | w1 Hr Ht | w1 w2 Hr Ht Hs]; subst; rewrite Hr in Hb.
  - rewrite (bind_run_Throw _ _ _ _ _ _ _ _ Hb). reflexivity.
  - rewrite (bind_run _ _ _ _ _ _ _ _ Hb).
    unfold bind, toFile, await. rewrite Ht. reflexivity.
  - rewrite (bind_run _ _ _ _ _ _ _ _ Hb).
    unfold bind, toFile, stat_size, await. rewrite Ht. cbn. rewrite Hs.
    reflexivity.
Qed.

(** An iteration whose file is written and measured records its row and
    hands the temporary file to [fs.remove]. *)
Lemma benchmark_format_measures testImage format (l : list row)
    (w w1 w2 : W) size :
  let t0 := fst (Date_now w) in
  let p := benchmark_pipeline cfg testImage format in
  let tmp := temp_path format in
  pipeline_refusal W p = None ->
  sharp_toFile p tmp (snd (Date_now w)) = (Ok tt, w1) ->
  fs_stat tmp w1 = (Ok size, w2) ->
  let t1 := fst (Date_now w2) in
  let removal := fst (fs_remove tmp (snd (Date_now w2))) in
  benchmark_format cfg testImage format l w =
    Run (Ret tt)
        (l ++ measured_row format size (t1 - t0)
           :: match removal with
              | Ok _ => []
              | Rejected msg => [error_row format msg]
              end)
        (snd (fs_remove tmp (snd (Date_now w2))))
        [ENow t0; EToFile p tmp (Ok tt); EStat tmp (Ok size);
         ENow t1; ERemove tmp removal].
Proof.
  intros t0 p tmp Hr Ht Hs t1 removal. subst t0 t1 removal.
  pose proof (build_benchmark_run (L:=list row) testImage format l
                (snd (Date_now w))) as Hb.
  fold p in Hb. rewrite Hr in Hb.
  unfold benchmark_format. rewrite bind_now. fold tmp.
  unfold try_catch. rewrite (bind_run _ _ _ _ _ _ _ _ Hb).
  unfold bind, toFile, stat_size, remove, await, now, push, get_local,
    set_local, bind.
  rewrite Ht. cbn. rewrite Hs. cbn.
  destruct (Date_now w2) as [t1 w3]. cbn.
  destruct (fs_remove tmp w3) as [[[]|msg] w4]; cbn; [reflexivity|].
  now rewrite <- app_assoc.
Qed.

(** The two ways one iteration can go. *)
Lemma benchmark_format_cases testImage format (l : list row) (w : W) :
  let t0 := fst (Date_now w) in
  let w0 := snd (Date_now w) in
  let p := benchmark_pipeline cfg testImage format in
  let tmp := temp_path format in
  let r := benchmark_format cfg testImage format l w in
  (exists msg calls w',
      task_fails p tmp w0 msg calls w' /\
      r = Run (Ret tt) (l ++ [error_row format msg]) w' (ENow t0 :: calls))
  \/ (exists size w1 w2,
      pipeline_refusal W p = None /\
      sharp_toFile p tmp w0 = (Ok tt, w1) /\
      fs_stat tmp w1 = (Ok size, w2) /\
      let t1 := fst (Date_now w2) in
      let removal := fst (fs_remove tmp (snd (Date_now w2))) in
      r = Run (Ret tt)
            (l ++ measured_row format size (t1 - t0)
               :: match removal with
                  | Ok _ => []
                  | Rejected msg => [error_row format msg]
                  end)
            (snd (fs_remove tmp (snd (Date_now w2))))
            [ENow t0; EToFile p tmp (Ok tt); EStat tmp (Ok size);
             ENow t1; ERemove tmp removal]).
Proof.
  intros t0 w0 p tmp r. subst r.
  destruct (pipeline_refusal W p) as [msg|] eqn:Hr.
  { left. exists msg, [], w0. split; [now apply Refused|].
    apply benchmark_format_fails. now apply Refused. }
  destruct (sharp_toFile p tmp w0) as [[[]|msg] w1] eqn:Ht.
  2:{ left. exists msg, [EToFile p tmp (Rejected msg)], w1.
      split; [now apply NotWritten|].
      apply benchmark_format_fails. now apply NotWritten. }
  destruct (fs_stat tmp w1) as [[size|msg] w2] eqn:Hs.
  - right. exists size, w1, w2.
    repeat (split; [assumption || reflexivity|]).
    now apply benchmark_format_measures with (w1 := w1).
  - left. exists msg, [EToFile p tmp (Ok tt); EStat tmp (Rejected msg)], w2.
    split; [now apply NotMeasured with (w1 := w1)|].
    apply benchmark_format_fails. now apply NotMeasured with (w1 := w1).
Qed.

Lemma benchmark_format_returns testImage format (l : list row) (w : W) :
  res (benchmark_format cfg testImage format l w) = Ret tt.
Proof.
  destruct (benchmark_format_cases testImage format l w)
    as [(msg & calls & w' & _ & ->) | (sz & w1 & w2 & _ & _ & _ & ->)];
    reflexivity.
Qed.

Lemma benchmark_loop testImage fs (l : list row) (w : W) :
  let r := for_of fs (benchmark_format cfg testImage) l w in
  res r = Ret tt /\ benchmarked W cfg testImage fs l (loc r) (evs r).
Proof.
  apply (for_of_rel (benchmark_format cfg testImage)
           (benchmarked W cfg testImage)).
  - intros l0. exists []. rewrite app_nil_r.
    repeat split; try reflexivity. constructor.
  - clear fs l w. intros f fs l w.
    split; [apply benchmark_format_returns|].
    intros l2 es (rows & -> & T & S & Rm & Te & Ex).
    assert (Herr : forall msg, row_shape (error_row f msg))
      by (intros msg; left; exists msg; reflexivity).
    assert (Hms : forall sz d, row_shape (measured_row f sz d))
      by (intros sz d; right; exists sz, d; reflexivity).
    unfold benchmarked.
    assert (Hfin : forall rows' es',
      tofile_calls es' =
        List.filter (fun c => accepted W (fst c))
          [(benchmark_pipeline cfg testImage f, temp_path f)] ->
      Forall row_shape rows' ->
      removed_paths es' = stat_ok_paths es' ->
      top_level_errors es' = [] -> exit_calls es' = [] ->
      exists rows0,
        (l ++ rows') ++ rows = l ++ rows0 /\
        tofile_calls (es' ++ es) =
          List.filter (fun c => accepted W (fst c))
            (map (fun f => (benchmark_pipeline cfg testImage f, temp_path f))
               (f :: fs)) /\
        Forall row_shape rows0 /\
        removed_paths (es' ++ es) = stat_ok_paths (es' ++ es) /\
        top_level_errors (es' ++ es) = [] /\ exit_calls (es' ++ es) = []).
    { intros rows' es' T' S' Rm' Te' Ex'. exists (rows' ++ rows).
      change (map (fun f => (benchmark_pipeline cfg testImage f, temp_path f))
                (f :: fs))
        with ([(benchmark_pipeline cfg testImage f, temp_path f)]
              ++ map (fun f => (benchmark_pipeline cfg testImage f,
                                temp_path f)) fs).
      rewrite List.filter_app, <- T, <- T'.
      unfold tofile_calls, removed_paths, stat_ok_paths,
        top_level_errors, exit_calls in *.
      rewrite !omap_app, Rm, Rm', Te, Te', Ex, Ex', app_assoc.
      repeat split; try reflexivity. now apply Forall_app. }
    destruct (benchmark_format_cases testImage f l w)
      as [(msg & calls & w' & Hf & ->)
         | (sz & w1 & w2 & Hr & _ & _ & ->)]; cbn [loc evs].
    + destruct (task_fails_quiet _ _ _ _ _ _ Hf)
        as (Tc & _ & _ & _ & _ & _ & Tec & Exc & _ & Rmc & Stc & _).
      apply Hfin;
        [exact Tc | auto using Forall_cons, Forall_nil | | exact Tec
        | exact Exc].
      change (removed_paths calls = stat_ok_paths calls).
      now rewrite Rmc, Stc.
    + assert (Ha : accepted W (benchmark_pipeline cfg testImage f) = true)
        by (unfold accepted; now rewrite Hr).
      destruct (fst (fs_remove (temp_path f) (snd (Date_now w2))))
        as [[]|msg]; apply Hfin; try reflexivity;
        auto using Forall_cons, Forall_nil;
        cbn [List.filter fst]; rewrite Ha; reflexivity.
Qed.

(** The table and the calls of the benchmark loop. *)
Lemma benchmark_loop_footprint (testImage : string) (fs : list string)
    (l : list row) (w : W) :
  let r := for_of fs (benchmark_format cfg testImage) l w in
  benchmark_footprint fs l (loc r) (evs r).
Proof.
  apply (for_of_rel (benchmark_format cfg testImage) benchmark_footprint).
  - intros l0. exists []. rewrite app_nil_r.
    repeat split; try reflexivity; constructor.
  - clear fs l w. intros f fs l w.
    split; [apply benchmark_format_returns|].
    intros l2 es (rows & -> & Len & Fm & Cov & Rm & Ld & Ec).
    assert (Hfin : forall rows' es',
      rows' <> [] ->
      length rows' = (1 + length (rejected_removals es'))%nat ->
      Forall (fun r => row_format r = f) rows' ->
      Forall (fun p => p = temp_path f) (removed_paths es') ->
      listed_dirs es' = [] -> existence_checks es' = [] ->
      benchmark_footprint (f :: fs) l ((l ++ rows') ++ rows) (es' ++ es)).
    { intros rows' es' Hne Len' Fm' Rm' Ld' Ec'. exists (rows' ++ rows).
      unfold rejected_removals, removed_paths, listed_dirs,
        existence_checks in *.
      rewrite !omap_app, !length_app, Len, Len', Ld, Ld', Ec, Ec', app_assoc.
      split; [reflexivity|]. split; [cbn; lia|].
      split.
      { apply Forall_app. split.
        - eapply List.Forall_impl; [|exact Fm']. intros r ->. now left.
        - eapply List.Forall_impl; [|exact Fm]. intros r Hin. now right. }
      split.
      { constructor.
        - rewrite map_app. apply in_or_app. left.
          destruct rows' as [|r rs]; [congruence|].
          inversion Fm' as [|? ? Hf _]; subst. cbn. auto.
        - eapply List.Forall_impl; [|exact Cov]. intros g Hin.
          rewrite map_app. apply in_or_app. now right. }
      split; [|split; reflexivity].
      apply Forall_app. split.
      - eapply List.Forall_impl; [|exact Rm']. intros p ->. cbn. auto.
      - eapply List.Forall_impl; [|exact Rm]. intros p Hin. cbn. auto. }
    destruct (benchmark_format_cases testImage f l w)
      as [(msg & calls & w' & Hf & ->)
         | (sz & w1 & w2 & Hr & _ & _ & ->)]; cbn [loc evs].
    + destruct (task_fails_quiet _ _ _ _ _ _ Hf)
        as (_ & _ & _ & _ & _ & _ & _ & _ & Ldc & Rmc & _ & Ecc & Rrc).
      apply Hfin; [discriminate | | repeat constructor | | exact Ldc
                  | exact Ecc].
      * change (rejected_removals (ENow (fst (Date_now w)) :: calls))
          with (rejected_removals calls). now rewrite Rrc.
      * change (removed_paths (ENow (fst (Date_now w)) :: calls))
          with (removed_paths calls). rewrite Rmc. constructor.
    + destruct (fst (fs_remove (temp_path f) (snd (Date_now w2))))
        as [[]|msg]; apply Hfin; try reflexivity;
        try discriminate; repeat constructor.
Qed.

Lemma benchmarkFormats_found {L} (l : L) (w : W) :
  fst (fs_pathExists (test_image cfg) w) = Ok true ->
  let rl := for_of (formats cfg) (benchmark_format cfg (test_image cfg)) []
              (snd (fs_pathExists (test_image cfg) w)) in
  benchmarkFormats cfg l w =
    Run (Ret tt) l (wld rl)
        (EPathExists (test_image cfg) (Ok true) :: ELog LBenchmarking
         :: evs rl ++ [ETable (loc rl)]).
Proof.
  intros E rl.
  destruct (benchmark_loop (test_image cfg) (formats cfg) []
              (snd (fs_pathExists (test_image cfg) w))) as [Hr _].
  cbn zeta in Hr. fold rl in Hr.
  unfold benchmarkFormats. rewrite call_fn_run.
  unfold benchmarkFormats_body, bind, pathExists, await, console_log, emit,
    get_local.
  destruct (fs_pathExists (test_image cfg) w) as [r w1]. cbn [fst snd] in *.
  subst r. cbn [negb]. fold rl.
  destruct rl as [o l1 w2 e1]. cbn [res loc wld evs] in *. subst o.
  cbn. reflexivity.
Qed.

Lemma benchmarkFormats_missing {L} (l : L) (w : W) :
  fst (fs_pathExists (test_image cfg) w) = Ok false ->
  benchmarkFormats cfg l w =
    Run (Ret tt) l (snd (fs_pathExists (test_image cfg) w))
        [EPathExists (test_image cfg) (Ok false); ELog LBenchmarkSkipped].
Proof.
  intros E. unfold benchmarkFormats. rewrite call_fn_run.
  unfold benchmarkFormats_body, bind, pathExists, await, console_log, emit.
  destruct (fs_pathExists (test_image cfg) w) as [r w1]. cbn [fst snd] in *.
  subst r. reflexivity.
Qed.

Lemma benchmarkFormats_rejected {L} (l : L) (w : W) msg :
  fst (fs_pathExists (test_image cfg) w) = Rejected msg ->
  benchmarkFormats cfg l w =
    Run (Throw msg) l (snd (fs_pathExists (test_image cfg) w))
        [EPathExists (test_image cfg) (Rejected msg)].
Proof.
  intros E. unfold benchmarkFormats. rewrite call_fn_run.
  unfold benchmarkFormats_body, bind, pathExists, await.
  destruct (fs_pathExists (test_image cfg) w) as [r w1]. cbn [fst snd] in *.
  subst r. reflexivity.
Qed.

End BenchmarkFacts.

(** ** Views of a whole run of [generateThumbnails] *)

Section RunViews.
Context {W : Type} `{Env W}.
Variable cfg : config_t.

Lemma quiet_scan files t0 : quiet (scan_events cfg files ++ [ENow t0]).
Proof. repeat split; reflexivity. Qed.

Lemma quiet_complete t0 t1 n : quiet (complete_events cfg t0 t1 n).
Proof. repeat split; reflexivity. Qed.

Lemma try_block_views (w w1 w2 : W) files :
  fs_ensureDir (outputDir cfg) w = (Ok tt, w1) ->
  fs_readdir (inputDir cfg) w1 = (Ok files, w2) ->
  let imageFiles := List.filter is_image_file files in
  let es := evs (generateThumbnails_try cfg 0%nat w) in
  tofile_calls es = accepted_calls W cfg imageFiles /\
  processed_files es = imageFiles /\
  reported_names es = task_names cfg imageFiles /\
  (length (thumbnails_logged es) + length (failures_logged es))%nat =
    (length imageFiles * (length (sizes cfg) * length (formats cfg)))%nat /\
  (exists seconds,
      In (ELog (LComplete (length (thumbnails_logged es)) seconds)) es) /\
  top_level_errors es = [] /\ exit_calls es = [] /\ removed_paths es = [].
Proof.
  intros E1 E2 imageFiles es. subst es.
  rewrite (generateThumbnails_try_run cfg w w1 w2 files E1 E2).
  cbn [evs]. fold imageFiles.
  set (w3 := snd (Date_now w2)).
  set (rl := for_of imageFiles (process_file cfg) 0%nat w3).
  set (rr := report_savings cfg imageFiles (loc rl) (snd (Date_now (wld rl)))).
  destruct (process_files_spec cfg imageFiles 0%nat w3)
    as (_ & T & P & (Lc & Cnt & Te & Ex & _ & Rm)).
  cbn zeta in *. fold rl in T, P, Lc, Cnt, Te, Ex, Rm. cbn [Nat.add] in Lc.
  pose proof (process_files_names cfg imageFiles 0%nat w3) as Nm.
  fold rl in Nm.
  destruct (report_savings_spec cfg imageFiles (loc rl)
              (snd (Date_now (wld rl))))
    as (_ & (Q1 & Q2 & Q3 & Q4 & Q5 & Q6 & Q7 & Q8) & _).
  cbn zeta in *. fold rr in Q1, Q2, Q3, Q4, Q5, Q6, Q7, Q8.
  set (t0 := fst (Date_now w2)) in *.
  set (t1 := fst (Date_now (wld rl))) in *.
  assert (HIn : In (ELog (LComplete (loc rl)
                        (js_div (js_of_Z (t1 - t0)) (js_of_Z 1000))))
                  (scan_events cfg files ++ ENow t0 :: evs rl ++
                   complete_events cfg t0 t1 (loc rl) ++ evs rr)).
  { apply in_or_app. right. right. apply in_or_app. right.
    apply in_or_app. left. cbn. auto. }
  change (scan_events cfg files ++ ENow t0 :: evs rl ++
          complete_events cfg t0 t1 (loc rl) ++ evs rr)
    with ((scan_events cfg files ++ [ENow t0]) ++ evs rl ++
          complete_events cfg t0 t1 (loc rl) ++ evs rr) in *.
  destruct (quiet_scan files t0) as (S1 & S2 & S3 & S4 & S5 & S6 & S7 & S8).
  destruct (quiet_complete t0 t1 (loc rl))
    as (C1 & C2 & C3 & C4 & C5 & C6 & C7 & C8).
  set (pre := scan_events cfg files ++ [ENow t0]) in *. clearbody pre.
  set (post := complete_events cfg t0 t1 (loc rl)) in *. clearbody post.
  unfold tofile_calls, processed_files, reported_names, thumbnails_logged,
    failures_logged, top_level_errors, exit_calls, removed_paths in *.
  rewrite !omap_app, T, P, Nm, Q1, Q2, Q3, Q4, Q5, Q6, Q7, Q8, Te, Ex, Rm,
    S1, S2, S3, S4, S5, S6, S7, S8, C1, C2, C3, C4, C5, C6, C7, C8.
  cbn [app]. rewrite !app_nil_r.
  repeat split; try reflexivity; try exact Cnt.
  eexists. rewrite <- Lc. exact HIn.
Qed.

End RunViews.

(** ** The routine with its [catch] block *)

Section RoutineViews.
Context {W : Type} `{Env W}.
Variable cfg : config_t.

(** The [catch] block adds no conversion and no per-file or per-task
    line. *)
Lemma generateThumbnails_views {L} (l : L) (w w1 w2 : W) files :
  fs_ensureDir (outputDir cfg) w = (Ok tt, w1) ->
  fs_readdir (inputDir cfg) w1 = (Ok files, w2) ->
  let imageFiles := List.filter is_image_file files in
  let es := evs (generateThumbnails cfg l w) in
  tofile_calls es = accepted_calls W cfg imageFiles /\
  processed_files es = imageFiles /\
  reported_names es = task_names cfg imageFiles /\
  (length (thumbnails_logged es) + length (failures_logged es))%nat =
    (length imageFiles * (length (sizes cfg) * length (formats cfg)))%nat /\
  (exists seconds,
      In (ELog (LComplete (length (thumbnails_logged es)) seconds)) es).
Proof.
  intros E1 E2 imageFiles es. subst es.
  destruct (try_block_views cfg w w1 w2 files E1 E2)
    as (T & P & Nm & Cnt & (sec & HIn) & _).
  cbn zeta in *. fold imageFiles in T, P, Nm, Cnt.
  destruct (generateThumbnails_outcome cfg l w) as (_ & _ & Ho).
  cbn zeta in Ho.
  set (rt := generateThumbnails_try cfg 0%nat w) in *.
  assert (Hev : exists tail, evs (generateThumbnails cfg l w) = evs rt ++ tail
                             /\ quiet_tail tail).
  { destruct (res rt) as [[]|msg|c]; destruct Ho as [_ Ho]; rewrite Ho.
    - exists []. rewrite app_nil_r. split; [reflexivity | repeat split].
    - eexists. split; [reflexivity | repeat split].
    - exists []. rewrite app_nil_r. split; [reflexivity | repeat split]. }
  destruct Hev as (tail & -> & (Q1 & Q2 & Q3 & Q4 & Q5)).
  unfold tofile_calls, processed_files, reported_names, thumbnails_logged,
    failures_logged in *.
  rewrite !omap_app, Q1, Q2, Q3, Q4, Q5, !app_nil_r.
  repeat split; try assumption.
  exists sec. apply in_or_app. now left.
Qed.

End RoutineViews.

Lemma size_reports_app (a b : list event) :
  size_reports (a ++ b) = size_reports a ++ size_reports b.
Proof. apply omap_app. Qed.

Lemma size_reports_run_tail cfg files t0 t1 n loop tail :
  size_reports loop = [] ->
  size_reports (scan_events cfg files ++ ENow t0 :: loop
                ++ complete_events cfg t0 t1 n ++ tail) = size_reports tail.
Proof.
  intros Hl.
  change (scan_events cfg files ++ ENow t0 :: loop
          ++ complete_events cfg t0 t1 n ++ tail)
    with ((scan_events cfg files ++ [ENow t0]) ++ loop
          ++ complete_events cfg t0 t1 n ++ tail).
  rewrite !size_reports_app, Hl. reflexivity.
Qed.

(** ** A run of [generateThumbnails], cut at one step *)

Section TaskRuns.
Context {W : Type} `{Env W}.
Variable cfg : config_t.


(** Every task of a recognized file, a configured size and a configured
    format is one of the steps of the run. *)
Lemma task_in_steps imageFiles file size format :
  In file imageFiles -> In size (sizes cfg) -> In format (formats cfg) ->
  exists before after,
    steps cfg imageFiles = before ++ Convert file size format :: after.
Proof.
  intros Hf Hs Hm. apply in_split. unfold steps.
  apply in_flat_map. exists file. split; [exact Hf|].
  unfold file_steps. right. apply in_flat_map. exists size.
  split; [exact Hs | now apply in_map].
Qed.

(** The run once the two directories have been obtained: the banner, the
    steps, the completion lines, the reporting step and, if the latter
    throws, the [catch] block. *)
Lemma generateThumbnails_run {L} (l : L) (w w1 w2 : W) files :
  fs_ensureDir (outputDir cfg) w = (Ok tt, w1) ->
  fs_readdir (inputDir cfg) w1 = (Ok files, w2) ->
  let imageFiles := List.filter is_image_file files in
  let t0 := fst (Date_now w2) in
  let rl := for_of (steps cfg imageFiles) (run_step cfg) 0%nat
              (snd (Date_now w2)) in
  let t1 := fst (Date_now (wld rl)) in
  let rr := report_savings cfg imageFiles (loc rl) (snd (Date_now (wld rl))) in
  let r := generateThumbnails cfg l w in
  exists tail,
    evs r = scan_events cfg files ++ ENow t0 :: evs rl
            ++ complete_events cfg t0 t1 (loc rl) ++ evs rr ++ tail /\
    ((res rr = Ret tt /\ res r = Ret tt /\ tail = [])
     \/ (exists m, res rr = Throw m /\ res r = Exit 1 /\
                   tail = [EErrorMessage m; EExit 1])).
Proof.
  intros E1 E2 imageFiles t0 rl t1 rr r.
  destruct (generateThumbnails_outcome cfg l w) as (_ & _ & Ho).
  cbn zeta in Ho.
  rewrite (generateThumbnails_try_run cfg w w1 w2 files E1 E2) in Ho.
  cbn [res evs] in Ho. fold imageFiles in Ho.
  rewrite loop_as_steps in Ho. fold t0 in Ho. fold rl in Ho. fold t1 in Ho.
  fold rr in Ho. fold r in Ho.
  destruct (report_savings_spec cfg imageFiles (loc rl)
              (snd (Date_now (wld rl))))
    as (_ & _ & [(os & tf & ts & Hres & _) | (m & Hres & _)]);
    cbn zeta in Hres; fold rr in Hres; rewrite Hres in Ho;
    destruct Ho as [Hr He].
  - exists []. split; [now rewrite app_nil_r | left; auto].
  - exists [EErrorMessage m; EExit 1]. split; [|right; eauto].
    rewrite He. rewrite <- app_assoc. cbn [app]. now rewrite <- !app_assoc.
Qed.

(** The same run, cut at one of its steps. *)
Lemma generateThumbnails_at_step {L} (l : L) (w w1 w2 : W) files
    before s after :
  fs_ensureDir (outputDir cfg) w = (Ok tt, w1) ->
  fs_readdir (inputDir cfg) w1 = (Ok files, w2) ->
  let imageFiles := List.filter is_image_file files in
  steps cfg imageFiles = before ++ s :: after ->
  let t0 := fst (Date_now w2) in
  let rb := for_of before (run_step cfg) 0%nat (snd (Date_now w2)) in
  let rt := run_step cfg s (loc rb) (wld rb) in
  let ra := for_of after (run_step cfg) (loc rt) (wld rt) in
  let t1 := fst (Date_now (wld ra)) in
  let rr := report_savings cfg imageFiles (loc ra) (snd (Date_now (wld ra))) in
  let r := generateThumbnails cfg l w in
  res ra = Ret tt /\
  exists tail,
    evs r = scan_events cfg files ++ ENow t0 :: evs rb ++ evs rt ++ evs ra
            ++ complete_events cfg t0 t1 (loc ra) ++ evs rr ++ tail /\
    ((res rr = Ret tt /\ res r = Ret tt /\ tail = [])
     \/ (exists m, res rr = Throw m /\ res r = Exit 1 /\
                   tail = [EErrorMessage m; EExit 1])).
Proof.
  intros E1 E2 imageFiles Hsplit t0 rb rt ra t1 rr r.
  destruct (generateThumbnails_run l w w1 w2 files E1 E2)
    as (tail & He & Hres). cbn zeta in He, Hres.
  fold imageFiles in He, Hres. rewrite Hsplit in He, Hres.
  rewrite (for_of_split (run_step cfg) before s after 0%nat
             (snd (Date_now w2)) (run_step_returns cfg)) in He, Hres.
  cbn [res loc wld evs] in He, Hres.
  fold rb in He, Hres. fold rt in He, Hres. fold ra in He, Hres.
  split; [apply (steps_spec cfg after)|].
  exists tail. split; [|exact Hres].
  fold r in He. rewrite He. fold t0. fold t1. fold rr.
  now rewrite <- !app_assoc.
Qed.


End TaskRuns.

(** ** The claims *)

(** The percentage of line 136 when nothing was counted on the input side:
    the division is by zero and gives [NaN] or [-Infinity]. *)
Lemma savings_percent_zero (t : N) :
  savings_percent 0 t = if N.eqb t 0 then JNaN else JNegInf.
Proof.
  destruct t as [|p]; [reflexivity|].
  unfold savings_percent, js_of_N, js_of_Z, js_sub, js_div.
  change (q_is_zero (inject_Z (Z.of_N 0))) with true. cbn [N.eqb].
  set (x := Qred (inject_Z (Z.of_N 0) - inject_Z (Z.of_N (N.pos p)))).
  assert (Hx : (x == inject_Z (Z.neg p))%Q).
  { unfold x. rewrite Qred_correct. unfold Qeq. cbn. lia. }
  assert (Hz : q_is_zero x = false).
  { unfold q_is_zero. destruct (Qeq_bool x 0) eqn:E; [|reflexivity].
    apply Qeq_bool_iff in E. rewrite Hx in E. unfold Qeq in E. cbn in E. lia. }
  assert (Hn : q_is_neg x = true).
  { unfold q_is_neg. destruct (Qle_bool 0 x) eqn:E; [|reflexivity].
    apply Qle_bool_iff in E. rewrite Hx in E. unfold Qle in E. cbn in E. lia. }
  rewrite Hz, Hn. reflexivity.
Qed.




(** C2.  For every task of a run, if the image library refuses the
    pipeline, or the encode or write is rejected, or the size of the written
    file cannot be obtained, the error is caught: the task logs one [Failed]
    line with the output filename and the message of the error, leaves the
    counter as it was and returns normally.  The run goes on with the next
    task, from the state the failed task left: every remaining file is
    announced and every remaining task ends in its own line, the completion
    lines follow, and the run ends with an error only if the reporting step
    throws. *)
Theorem C2_task_failure_is_contained {W} `{Env W} {L}
    (cfg : config_t) (l : L) (w w1 w2 : W) (files : list string)
    (before after : list step) (file : string) (size : size_spec)
    (format : string) (msg : string) (calls : list event) (w' : W) :
  fs_ensureDir (outputDir cfg) w = (Ok tt, w1) ->
  fs_readdir (inputDir cfg) w1 = (Ok files, w2) ->
  let imageFiles := List.filter is_image_file files in
  steps cfg imageFiles = before ++ Convert file size format :: after ->
  let t0 := fst (Date_now w2) in
  let rb := for_of before (run_step cfg) 0%nat (snd (Date_now w2)) in
  let name := Path.name file +:+ suffix size +:+ "." +:+ format in
  let out := Path.join (outputDir cfg) name in
  let p := thumbnail_pipeline cfg (Path.join (inputDir cfg) file) size format in
  task_fails p out (wld rb) msg calls w' ->
  let ra := for_of after (run_step cfg) (loc rb) w' in
  let t1 := fst (Date_now (wld ra)) in
  let rr := report_savings cfg imageFiles (loc ra) (snd (Date_now (wld ra))) in
  let r := generateThumbnails cfg l w in
  (* the failure is caught and logged *)
  run_step cfg (Convert file size format) (loc rb) (wld rb) =
    Run (Ret tt) (loc rb) w' (calls ++ [ELog (LFailed name msg)]) /\
  (* the remaining tasks are run *)
  res ra = Ret tt /\
  processed_files (evs ra) = omap step_file after /\
  reported_names (evs ra) = omap step_name after /\
  loc ra = (loc rb + length (thumbnails_logged (evs ra)))%nat /\
  (* the run is not aborted *)
  (exists tail,
     evs r = scan_events cfg files ++ ENow t0 :: evs rb
             ++ (calls ++ [ELog (LFailed name msg)]) ++ evs ra
             ++ complete_events cfg t0 t1 (loc ra) ++ evs rr ++ tail /\
     ((res rr = Ret tt /\ res r = Ret tt /\ tail = [])
      \/ (exists m, res rr = Throw m /\ res r = Exit 1 /\
                    tail = [EErrorMessage m; EExit 1]))) /\
  top_level_errors (evs rb ++ (calls ++ [ELog (LFailed name msg)]) ++ evs ra)
    = [] /\
  exit_calls (evs rb ++ (calls ++ [ELog (LFailed name msg)]) ++ evs ra) = [] /\
  (* every task of the run is one of its steps *)
  (forall file' size' format',
      In file' imageFiles -> In size' (sizes cfg) ->
      In format' (formats cfg) ->
      exists before' after',
        steps cfg imageFiles =
          before' ++ Convert file' size' format' :: after').
Proof.
  intros E1 E2 imageFiles Hsplit t0 rb name out p Hf ra t1 rr r.
  assert (Hrun : run_step cfg (Convert file size format) (loc rb) (wld rb) =
                 Run (Ret tt) (loc rb) w' (calls ++ [ELog (LFailed name msg)])).
  { cbn [run_step].
    exact (thumbnail_fails cfg (Path.name file)
             (Path.join (inputDir cfg) file) size format (loc rb) (wld rb)
             msg calls w' Hf). }
  split; [exact Hrun|].
  destruct (steps_spec cfg after (loc rb) w')
    as (Hra & _ & Pa & Na & _ & _ & (La & _ & Tea & Exa & _)).
  cbn zeta in Hra, Pa, Na, La, Tea, Exa. fold ra in Hra, Pa, Na, La, Tea, Exa.
  split; [exact Hra|]. split; [exact Pa|]. split; [exact Na|].
  split; [exact La|].
  split.
  { destruct (generateThumbnails_at_step cfg l w w1 w2 files before
                (Convert file size format) after E1 E2 Hsplit)
      as (_ & tail & He & Hres).
    cbn zeta in He, Hres. fold rb in He, Hres. rewrite Hrun in He, Hres.
    cbn [loc wld evs] in He, Hres.
    exists tail. split; [exact He | exact Hres]. }
  destruct (steps_spec cfg before 0%nat (snd (Date_now w2)))
    as (_ & _ & _ & _ & _ & _ & (_ & _ & Teb & Exb & _)).
  cbn zeta in Teb, Exb. fold rb in Teb, Exb.
  destruct (task_fails_quiet _ _ _ _ _ _ Hf)
    as (_ & _ & _ & _ & _ & _ & Tec & Exc & _).
  split; [|split; [|intros f' s' m'; apply task_in_steps]].
  - unfold top_level_errors in *. now rewrite !omap_app, Teb, Tec, Tea.
  - unfold exit_calls in *. now rewrite !omap_app, Exb, Exc, Exa.
Qed.

(** On the in-memory file system: the first task of a source that cannot
    be decoded fails at the encode, is logged, and the eleven tasks that
    remain all end in their own line. *)
Lemma C2_task_failure_is_contained_witness :
  let small := {| width := 80; height := 80; suffix := "" |} in
  let p := thumbnail_pipeline config "image/bad.png" small "jpg" in
  let msg := "Input file contains unsupported image format" in
  let r := generateThumbnails (L:=unit) config tt one_corrupt in
  (exists pre post,
     evs r = pre ++ [EToFile p "image/thumb/bad.jpg" (Rejected msg);
                     ELog (LFailed "bad.jpg" msg)] ++ post /\
     reported_names post =
       ["bad.webp"; "bad.avif"; "bad@2x.jpg"; "bad@2x.webp"; "bad@2x.avif";
        "good.jpg"; "good.webp"; "good.avif";
        "good@2x.jpg"; "good@2x.webp"; "good@2x.avif"]) /\
  res r = Ret tt /\
  thumbnails_logged (evs r) =
    ["good.jpg"; "good.webp"; "good.avif";
     "good@2x.jpg"; "good@2x.webp"; "good@2x.avif"].
Proof.
  set (w1 := snd (fs_ensureDir (outputDir config) one_corrupt)).
  set (w2 := snd (fs_readdir (inputDir config) w1)).
  set (small := {| width := 80; height := 80; suffix := "" |}).
  set (files := ["bad.png"; "good.png"; "thumb"]).
  set (before := [Announce "bad.png"]).
  set (after := skipn 2 (steps config (List.filter is_image_file files))).
  set (p := thumbnail_pipeline config (Path.join (inputDir config) "bad.png")
              small "jpg").
  set (out := Path.join (outputDir config) "bad.jpg").
  set (msg := "Input file contains unsupported image format").
  set (w3 := wld (for_of before (run_step config) 0%nat (snd (Date_now w2)))).
  set (w' := snd (sharp_toFile p out w3)).
  assert (E1 : fs_ensureDir (outputDir config) one_corrupt = (Ok tt, w1))
    by (vm_compute; reflexivity).
  assert (E2 : fs_readdir (inputDir config) w1 = (Ok files, w2))
    by (vm_compute; reflexivity).
  assert (Hsplit : steps config (List.filter is_image_file files)
                   = before ++ Convert "bad.png" small "jpg" :: after)
    by (vm_compute; reflexivity).
  assert (Hf : task_fails p out w3 msg [EToFile p out (Rejected msg)] w').
  { apply NotWritten; vm_compute; reflexivity. }
  destruct (C2_task_failure_is_contained (L:=unit) config tt one_corrupt
              w1 w2 files before after "bad.png" small "jpg" msg _ w'
              E1 E2 Hsplit Hf)
    as (_ & _ & _ & _ & _ & (tail & He & Hres) & _).
  assert (Htail : tail = []).
  { destruct Hres as [(_ & _ & ->) | (m & Hm & _)]; [reflexivity|].
    vm_compute in Hm. discriminate. }
  subst tail.
  cbn zeta. split; [|split; vm_compute; reflexivity].
  eexists _, _. split.
  { rewrite He. rewrite app_comm_cons, app_assoc. reflexivity. }
  vm_compute. reflexivity.
Defined.

(** A source that cannot be decoded costs its six thumbnails and nothing
    else: the six failures are logged with their filenames and the message,
    the six thumbnails of the other source are written, and the run ends
    normally. *)
Example corrupt_source_is_skipped :
  let r := generateThumbnails (L:=unit) config tt one_corrupt in
  res r = Ret tt /\
  failures_logged (evs r) =
    map (fun n => (n, "Input file contains unsupported image format"))
        ["bad.jpg"; "bad.webp"; "bad.avif";
         "bad@2x.jpg"; "bad@2x.webp"; "bad@2x.avif"] /\
  thumbnails_logged (evs r) =
    ["good.jpg"; "good.webp"; "good.avif";
     "good@2x.jpg"; "good@2x.webp"; "good@2x.avif"].
Proof. vm_compute. repeat split; reflexivity. Qed.

(** C3.  When no listed file has a recognized extension, no conversion is
    requested, the count reported is zero, and the reporting step divides
    by the zero total of the originals all the same: if it is reached, the
    percentage it prints is [NaN] (no thumbnail bytes either) or
    [-Infinity]. *)
Theorem C3_zero_images {W} `{Env W} {L}
    (cfg : config_t) (l : L) (w w1 w2 : W) (files : list string) :
  fs_ensureDir (outputDir cfg) w = (Ok tt, w1) ->
  fs_readdir (inputDir cfg) w1 = (Ok files, w2) ->
  List.filter is_image_file files = [] ->
  let r := generateThumbnails cfg l w in
  tofile_calls (evs r) = [] /\ thumbnails_logged (evs r) = [] /\
  (exists seconds, In (ELog (LComplete 0 seconds)) (evs r)) /\
  ((exists t,
       res r = Ret tt /\
       size_reports (evs r) =
         [(bytes_to_MB 0, bytes_to_MB t, savings_percent 0 t)] /\
       savings_percent 0 t = (if N.eqb t 0 then JNaN else JNegInf))
   \/ (res r = Exit 1 /\ size_reports (evs r) = [])).
Proof.
  intros E1 E2 Hnone r. subst r.
  destruct (generateThumbnails_views cfg l w w1 w2 files E1 E2)
    as (T & _ & _ & Cnt & (sec & HIn)).
  cbn zeta in *. rewrite Hnone in T, Cnt. cbn in T, Cnt.
  assert (Hth : thumbnails_logged (evs (generateThumbnails cfg l w)) = []).
  { destruct (thumbnails_logged (evs (generateThumbnails cfg l w)));
      [reflexivity | discriminate]. }
  rewrite Hth in HIn. cbn in HIn.
  split; [exact T|]. split; [exact Hth|]. split; [eauto|].
  destruct (generateThumbnails_outcome cfg l w) as (_ & _ & Ho).
  cbn zeta in Ho.
  rewrite (generateThumbnails_try_run cfg w w1 w2 files E1 E2) in Ho.
  cbn [res evs] in Ho. rewrite Hnone in Ho. cbn [for_of ret loc wld evs] in Ho.
  set (w3 := snd (Date_now (snd (Date_now w2)))) in *.
  destruct (report_savings_spec cfg [] 0%nat w3)
    as (_ & _ & [(os & tf & ts & Hres & Hlo & _ & Hev) | (msg & Hres & Hsz)]);
    cbn zeta in *; rewrite Hres in Ho; destruct Ho as [Hr He].
  - left. destruct os; [|discriminate]. exists (sum_sizes ts).
    split; [exact Hr|]. split; [|apply savings_percent_zero].
    rewrite He, size_reports_run_tail, Hev by reflexivity.
    change (stats_ok (map (Path.join (inputDir cfg)) []) []) with (@nil event).
    rewrite !size_reports_app, <- stats_settled_ok, size_reports_stats.
    reflexivity.
  - right. split; [exact Hr|].
    rewrite He, size_reports_app, size_reports_run_tail, Hsz by reflexivity.
    reflexivity.
Qed.

Lemma C3_zero_images_witness :
  let r := generateThumbnails (L:=unit) config tt no_images in
  tofile_calls (evs r) = [] /\ res r = Ret tt /\
  size_reports (evs r) = [(JFin 0, JFin 0, JNaN)].
Proof.
  set (w1 := snd (fs_ensureDir (outputDir config) no_images)).
  set (w2 := snd (fs_readdir (inputDir config) w1)).
  assert (E1 : fs_ensureDir (outputDir config) no_images = (Ok tt, w1))
    by (vm_compute; reflexivity).
  assert (E2 : fs_readdir (inputDir config) w1
               = (Ok ["notes.txt"; ".jpg"; "thumb"], w2))
    by (vm_compute; reflexivity).
  destruct (C3_zero_images config tt no_images w1 w2 _ E1 E2 eq_refl)
    as (T & _).
  split; [exact T|]. vm_compute. split; reflexivity.
Defined.

(** C4 (as amended).  In a run that completes, after every conversion
    task has ended in its line and after the completion lines,
    [generateThumbnails] queries the size of each image file found by the
    initial listing of the input directory (the directory is not listed
    again), lists the output directory and queries the size of every entry
    in it, sums each group of byte sizes, and reports the percentage
    [(totalOriginalSize - totalThumbSize) / totalOriginalSize * 100]. *)
Theorem C4_size_report {W} `{Env W} {L}
    (cfg : config_t) (l : L) (w w1 w2 : W) (files : list string) :
  fs_ensureDir (outputDir cfg) w = (Ok tt, w1) ->
  fs_readdir (inputDir cfg) w1 = (Ok files, w2) ->
  res (generateThumbnails cfg l w) = Ret tt ->
  let imageFiles := List.filter is_image_file files in
  exists t0 t1 loop_events n originalSizes thumbFiles thumbSizes,
    let totalOriginalSize := sum_sizes originalSizes in
    let totalThumbSize := sum_sizes thumbSizes in
    evs (generateThumbnails cfg l w) =
      scan_events cfg files ++ ENow t0 :: loop_events
      ++ complete_events cfg t0 t1 n
      ++ stats_ok (map (Path.join (inputDir cfg)) imageFiles) originalSizes
      ++ [EReaddir (outputDir cfg) (Ok thumbFiles)]
      ++ stats_ok (map (Path.join (outputDir cfg)) thumbFiles) thumbSizes
      ++ [ELog (LSizeReduction
                  (bytes_to_MB totalOriginalSize)
                  (bytes_to_MB totalThumbSize)
                  (js_mul
                     (js_div (js_sub (js_of_N totalOriginalSize)
                                     (js_of_N totalThumbSize))
                             (js_of_N totalOriginalSize))
                     (js_of_Z 100)))] /\
    tofile_calls loop_events = accepted_calls W cfg imageFiles /\
    reported_names loop_events = task_names cfg imageFiles /\
    listed_dirs loop_events = [] /\
    length originalSizes = length imageFiles /\
    length thumbSizes = length thumbFiles.
Proof.
  intros E1 E2 Hret imageFiles.
  destruct (generateThumbnails_outcome cfg l w) as (_ & _ & Ho).
  cbn zeta in Ho.
  rewrite (generateThumbnails_try_run cfg w w1 w2 files E1 E2) in Ho.
  cbn [res evs] in Ho. fold imageFiles in Ho.
  set (t0 := fst (Date_now w2)) in *.
  set (rl := for_of imageFiles (process_file cfg) 0%nat (snd (Date_now w2))) in *.
  set (t1 := fst (Date_now (wld rl))) in *.
  set (rr := report_savings cfg imageFiles (loc rl) (snd (Date_now (wld rl)))) in *.
  destruct (process_files_spec cfg imageFiles 0%nat (snd (Date_now w2)))
    as (_ & T & _ & (_ & _ & _ & _ & Ld & _)).
  pose proof (process_files_names cfg imageFiles 0%nat (snd (Date_now w2)))
    as Nm.
  cbn zeta in *. fold rl in T, Ld, Nm.
  destruct (report_savings_spec cfg imageFiles (loc rl) (snd (Date_now (wld rl))))
    as (_ & _ & [(os & tf & ts & Hres & Hlo & Hlt & Hev) | (msg & Hres & _)]);
    cbn zeta in *; fold rr in Hres; rewrite Hres in Ho; destruct Ho as [Hr He].
  2:{ rewrite Hret in Hr. discriminate. }
  fold rr in Hev. rewrite Hev in He.
  exists t0, t1, (evs rl), (loc rl), os, tf, ts.
  cbn zeta. split; [exact He|]. repeat split; assumption.
Qed.

Lemma C4_size_report_witness :
  let r := generateThumbnails (L:=unit) config tt gallery in
  res r = Ret tt /\
  size_reports (evs r) =
    [(bytes_to_MB 50000, bytes_to_MB 12000, savings_percent 50000 12000)].
Proof.
  set (w1 := snd (fs_ensureDir (outputDir config) gallery)).
  set (w2 := snd (fs_readdir (inputDir config) w1)).
  assert (E1 : fs_ensureDir (outputDir config) gallery = (Ok tt, w1))
    by (vm_compute; reflexivity).
  assert (E2 : fs_readdir (inputDir config) w1
               = (Ok ["a.jpg"; "notes.txt"; "thumb"], w2))
    by (vm_compute; reflexivity).
  assert (E3 : res (generateThumbnails (L:=unit) config tt gallery) = Ret tt)
    by (vm_compute; reflexivity).
  destruct (C4_size_report config tt gallery w1 w2 _ E1 E2 E3)
    as (t0 & t1 & le & n & os & tf & ts & He & _).
  split; [exact E3|]. vm_compute. reflexivity.
Defined.

(** C4 as stated fails.  With the configuration of the script and a text
    file next to the photograph, the input directory is listed once, before
    the conversions, and not again after them; the original total reported
    is that of the photograph alone (50000 bytes) although the files found
    in the input directory weigh 50300 bytes, while on the output side
    every entry is counted.  With the thumbnails written next to the
    sources, a second listing of the input directory would also find the
    new JPEG and WebP files (78000 bytes of images), yet the total reported
    remains that of the source (70000 bytes). *)
Lemma C4_counterexample :
  (let r := generateThumbnails (L:=unit) config tt gallery in
   res r = Ret tt /\
   listed_dirs (evs r) = ["./image"; "./image/thumb"] /\
   ~ In (inputDir config) (listed_dirs (after_conversions (evs r))) /\
   size_reports (evs r) =
     [(bytes_to_MB 50000, bytes_to_MB 12000, savings_percent 50000 12000)] /\
   directory_bytes (fun _ => true) (wld r) "image" = 50300%N /\
   directory_bytes (fun _ => true) (wld r) "image/thumb" = 12000%N /\
   bytes_to_MB 50000 <> bytes_to_MB 50300) /\
  (let r := generateThumbnails (L:=unit) config_in_place tt one_png in
   res r = Ret tt /\
   listed_dirs (after_conversions (evs r)) = [outputDir config_in_place] /\
   size_reports (evs r) =
     [(bytes_to_MB 70000, bytes_to_MB 82000, savings_percent 70000 82000)] /\
   directory_bytes is_image_file (wld r) "image" = 78000%N /\
   bytes_to_MB 70000 <> bytes_to_MB 78000).
Proof.
  split.
  - vm_compute. repeat split; try reflexivity.
    + intros [E | []]. discriminate.
    + discriminate.
  - vm_compute. repeat split; try reflexivity. discriminate.
Qed.

(** C5.  A file passes the filter exactly when its extension, lower-cased,
    is one of [.jpg], [.jpeg], [.png], [.webp]; the files announced, the
    conversions handed to the image library (those of the tasks whose
    pipeline it accepts to build) and the per-task lines of a run are those
    of the files that pass, in listing order, so a file that does not pass
    contributes no task and no line. *)
Theorem C5_extension_filter {W} `{Env W} {L}
    (cfg : config_t) (l : L) (w w1 w2 : W) (files : list string) :
  fs_ensureDir (outputDir cfg) w = (Ok tt, w1) ->
  fs_readdir (inputDir cfg) w1 = (Ok files, w2) ->
  let es := evs (generateThumbnails cfg l w) in
  (forall file,
      is_image_file file = true <->
      In (toLowerCase (Path.extname file)) [".jpg"; ".jpeg"; ".png"; ".webp"]) /\
  processed_files es = List.filter is_image_file files /\
  tofile_calls es = accepted_calls W cfg (List.filter is_image_file files) /\
  reported_names es = task_names cfg (List.filter is_image_file files) /\
  (forall file, is_image_file file = false ->
                ~ In (ELog (LProcessing file)) es).
Proof.
  intros E1 E2 es.
  destruct (generateThumbnails_views cfg l w w1 w2 files E1 E2)
    as (T & P & Nm & _).
  cbn zeta in *. fold es in T, P, Nm.
  split.
  { intros file. unfold is_image_file, image_extensions.
    rewrite existsb_exists. split.
    - intros (e & Hin & Heq). apply String.eqb_eq in Heq. now subst.
    - intros Hin. eexists. split; [exact Hin | apply String.eqb_refl]. }
  repeat (split; [assumption|]).
  intros file Hno Hin.
  assert (Hp : In file (processed_files es)).
  { unfold processed_files. apply list_elem_of_In, list_elem_of_omap.
    exists (ELog (LProcessing file)). split; [now apply list_elem_of_In | reflexivity]. }
  rewrite P in Hp. apply filter_In in Hp. destruct Hp as [_ Hp]. congruence.
Qed.

Lemma C5_extension_filter_witness :
  let es := evs (generateThumbnails (L:=unit) config tt gallery) in
  processed_files es = ["a.jpg"] /\
  is_image_file "notes.txt" = false /\ is_image_file "PHOTO.JPeG" = true /\
  is_image_file ".jpg" = false.
Proof.
  set (w1 := snd (fs_ensureDir (outputDir config) gallery)).
  set (w2 := snd (fs_readdir (inputDir config) w1)).
  assert (E1 : fs_ensureDir (outputDir config) gallery = (Ok tt, w1))
    by (vm_compute; reflexivity).
  assert (E2 : fs_readdir (inputDir config) w1
               = (Ok ["a.jpg"; "notes.txt"; "thumb"], w2))
    by (vm_compute; reflexivity).
  destruct (C5_extension_filter config tt gallery w1 w2 _ E1 E2)
    as (_ & P & _).
  split; [exact P|]. vm_compute. repeat split; reflexivity.
Defined.

(** C6.  When the test image does not exist, [benchmarkFormats] returns
    normally after the existence check and the warning line: no resize, no
    encode, no other call is made. *)
Theorem C6_missing_test_image {W} `{Env W} {L}
    (cfg : config_t) (l : L) (w : W) :
  fst (fs_pathExists (Path.join (inputDir cfg) "1.jpg") w) = Ok false ->
  let r := benchmarkFormats cfg l w in
  res r = Ret tt /\
  evs r = [EPathExists (Path.join (inputDir cfg) "1.jpg") (Ok false);
           ELog LBenchmarkSkipped] /\
  tofile_calls (evs r) = [] /\
  wld r = snd (fs_pathExists (Path.join (inputDir cfg) "1.jpg") w).
Proof.
  intros E r. subst r.
  rewrite (benchmarkFormats_missing cfg l w E).
  repeat split; reflexivity.
Qed.

Lemma C6_missing_test_image_witness :
  let r := benchmarkFormats (L:=unit) config tt gallery in
  res r = Ret tt /\
  evs r = [EPathExists "image/1.jpg" (Ok false); ELog LBenchmarkSkipped].
Proof.
  assert (E : fst (fs_pathExists (Path.join (inputDir config) "1.jpg") gallery)
              = Ok false) by (vm_compute; reflexivity).
  destruct (C6_missing_test_image config tt gallery E) as (Hr & He & _).
  split; [exact Hr | exact He].
Defined.

(** C7.  When the test image exists, for every configured format: if the
    image library refuses the pipeline, or the encode or write is rejected,
    or the size of the temporary file cannot be obtained, the iteration
    records a row whose size cell is the text [Error] and whose time cell
    is the message of the error, and returns normally without asking for a
    removal.  The benchmark goes on with the remaining formats, from the
    state the failed iteration left: each of them gets its row after the
    error row, the table is printed once, at the end, and the benchmark
    returns normally. *)
Theorem C7_benchmark_failure_is_a_row {W} `{Env W} {L}
    (cfg : config_t) (l : L) (w : W) (before after : list string)
    (format : string) (msg : string) (calls : list event) (w' : W) :
  fst (fs_pathExists (test_image cfg) w) = Ok true ->
  formats cfg = before ++ format :: after ->
  let testImage := test_image cfg in
  let rb := for_of before (benchmark_format cfg testImage) []
              (snd (fs_pathExists testImage w)) in
  let p := benchmark_pipeline cfg testImage format in
  let tmp := "temp-test." +:+ format in
  task_fails p tmp (snd (Date_now (wld rb))) msg calls w' ->
  let row := {| row_format := format; row_size := CText "Error";
                row_time := CText msg |} in
  let ra := for_of after (benchmark_format cfg testImage)
              (loc rb ++ [row]) w' in
  let r := benchmarkFormats cfg l w in
  (* the failure is recorded as a row *)
  benchmark_format cfg testImage format (loc rb) (wld rb) =
    Run (Ret tt) (loc rb ++ [row]) w' (ENow (fst (Date_now (wld rb))) :: calls) /\
  removed_paths calls = [] /\
  (* the remaining formats are benchmarked *)
  res ra = Ret tt /\
  (exists rows,
     loc ra = (loc rb ++ [row]) ++ rows /\
     Forall (fun f => In f (map row_format rows)) after /\
     Forall (fun r => In (row_format r) after) rows) /\
  (* the benchmark is not aborted *)
  res r = Ret tt /\
  evs r = EPathExists testImage (Ok true) :: ELog LBenchmarking
          :: evs rb ++ (ENow (fst (Date_now (wld rb))) :: calls) ++ evs ra
          ++ [ETable (loc ra)] /\
  top_level_errors (evs r) = [] /\ exit_calls (evs r) = [].
Proof.
  intros E Hsplit testImage rb p tmp Hf row ra r.
  assert (Hrun : benchmark_format cfg testImage format (loc rb) (wld rb) =
                 Run (Ret tt) (loc rb ++ [row]) w'
                     (ENow (fst (Date_now (wld rb))) :: calls)).
  { exact (benchmark_format_fails cfg testImage format (loc rb) (wld rb)
             msg calls w' Hf). }
  split; [exact Hrun|].
  split; [apply (task_fails_quiet _ _ _ _ _ _ Hf)|].
  destruct (benchmark_loop cfg testImage after (loc rb ++ [row]) w')
    as [Hra _]. cbn zeta in Hra. fold ra in Hra.
  split; [exact Hra|].
  split.
  { destruct (benchmark_loop_footprint cfg testImage after
                (loc rb ++ [row]) w')
      as (rows & Hl & _ & Fm & Cov & _).
    fold ra in Hl. exists rows. repeat split; assumption. }
  assert (Hev : r = Run (Ret tt) l (wld ra)
                  (EPathExists testImage (Ok true) :: ELog LBenchmarking
                   :: evs rb ++ (ENow (fst (Date_now (wld rb))) :: calls)
                   ++ evs ra ++ [ETable (loc ra)])).
  { subst r. rewrite (benchmarkFormats_found cfg l w E). cbn zeta.
    fold testImage. rewrite Hsplit.
    rewrite (for_of_split (benchmark_format cfg testImage) before format after
               [] (snd (fs_pathExists testImage w))
               (benchmark_format_returns cfg testImage)).
    cbn [res loc wld evs]. fold rb. rewrite Hrun. cbn [res loc wld evs].
    fold ra. now rewrite <- !app_assoc. }
  rewrite Hev. cbn [res evs]. split; [reflexivity|]. split; [reflexivity|].
  destruct (benchmark_loop cfg testImage before []
              (snd (fs_pathExists testImage w)))
    as (_ & rows1 & _ & _ & _ & _ & Teb & Exb). fold rb in Teb, Exb.
  destruct (benchmark_loop cfg testImage after (loc rb ++ [row]) w')
    as (_ & rows2 & _ & _ & _ & _ & Tea & Exa). fold ra in Tea, Exa.
  destruct (task_fails_quiet _ _ _ _ _ _ Hf)
    as (_ & _ & _ & _ & _ & _ & Tec & Exc & _).
  change (EPathExists testImage (Ok true) :: ELog LBenchmarking
          :: evs rb ++ (ENow (fst (Date_now (wld rb))) :: calls)
          ++ evs ra ++ [ETable (loc ra)])
    with ([EPathExists testImage (Ok true); ELog LBenchmarking]
          ++ evs rb ++ ([ENow (fst (Date_now (wld rb)))] ++ calls)
          ++ evs ra ++ [ETable (loc ra)]).
  unfold top_level_errors, exit_calls in *.
  rewrite !omap_app, Teb, Tea, Tec, Exb, Exa, Exc. split; reflexivity.
Qed.

(** On the in-memory file system: the size of the temporary WebP file
    cannot be obtained; the table holds the error in the row of [webp],
    between the measured rows of the two other formats. *)
Lemma C7_benchmark_failure_is_a_row_witness :
  let r := benchmarkFormats (L:=unit) config tt stat_refused in
  res r = Ret tt /\
  last (evs r) =
    Some (ETable [measured_row "jpg" 800 7;
                  error_row "webp" "EACCES: permission denied, stat";
                  measured_row "avif" 800 7]).
Proof.
  set (testImage := test_image config).
  set (p := benchmark_pipeline config testImage "webp").
  set (tmp := "temp-test." +:+ "webp").
  set (msg := "EACCES: permission denied, stat").
  set (wb := wld (for_of ["jpg"] (benchmark_format config testImage) []
                    (snd (fs_pathExists testImage stat_refused)))).
  set (wt := snd (sharp_toFile p tmp (snd (Date_now wb)))).
  set (w' := snd (fs_stat tmp wt)).
  assert (E : fst (fs_pathExists (test_image config) stat_refused) = Ok true)
    by (vm_compute; reflexivity).
  assert (Hsplit : formats config = ["jpg"] ++ "webp" :: ["avif"])
    by reflexivity.
  assert (Hf : task_fails p tmp (snd (Date_now wb)) msg
                 [EToFile p tmp (Ok tt); EStat tmp (Rejected msg)] w').
  { apply NotMeasured with (w1 := wt); vm_compute; reflexivity. }
  destruct (C7_benchmark_failure_is_a_row (L:=unit) config tt stat_refused
              ["jpg"] ["avif"] "webp" msg _ w' E Hsplit Hf)
    as (_ & _ & _ & _ & Hr & He & _).
  cbn zeta. split; [exact Hr|]. rewrite He. vm_compute. reflexivity.
Defined.

(** The [try] block never logs a top-level error, never exits, and ends
    either normally or by throwing. *)
Lemma try_block_clean {W} `{Env W} (cfg : config_t) (w : W) :
  let rt := generateThumbnails_try cfg 0%nat w in
  top_level_errors (evs rt) = [] /\ exit_calls (evs rt) = [] /\
  (res rt = Ret tt \/ exists msg, res rt = Throw msg).
Proof.
  intros rt. subst rt.
  destruct (fs_ensureDir (outputDir cfg) w) as [[[]|msg] w1] eqn:E1.
  - destruct (fs_readdir (inputDir cfg) w1) as [[files|msg] w2] eqn:E2.
    + destruct (try_block_views cfg w w1 w2 files E1 E2)
        as (_ & _ & _ & _ & _ & Te & Ex & _).
      cbn zeta in *. split; [exact Te|]. split; [exact Ex|].
      rewrite (generateThumbnails_try_run cfg w w1 w2 files E1 E2). cbn [res].
      match goal with
      | |- context [res (report_savings cfg ?fs ?l ?w')] =>
          destruct (report_savings_spec cfg fs l w')
            as (_ & _ & [(? & ? & ? & Hres & _) | (msg & Hres & _)])
      end; cbn zeta in Hres; rewrite Hres; eauto.
    + unfold generateThumbnails_try.
      rewrite (bind_run_Throw _ _ _ _ _ _ _ _
                 (scan_input_no_listing cfg 0%nat w w1 w2 msg E1 E2)).
      cbn. eauto.
  - unfold generateThumbnails_try.
    rewrite (bind_run_Throw _ _ _ _ _ _ _ _
               (scan_input_no_output_dir cfg 0%nat w w1 msg E1)).
    cbn. eauto.
Qed.

(** An output directory that cannot be created and an input directory that
    cannot be listed are top-level errors. *)
Lemma listing_failures_are_top_level {W} `{Env W} (cfg : config_t)
    (w w1 w2 : W) (msg : string) :
  fs_ensureDir (outputDir cfg) w = (Rejected msg, w1)
  \/ (fs_ensureDir (outputDir cfg) w = (Ok tt, w1) /\
      fs_readdir (inputDir cfg) w1 = (Rejected msg, w2)) ->
  res (generateThumbnails_try cfg 0%nat w) = Throw msg /\
  tofile_calls (evs (generateThumbnails_try cfg 0%nat w)) = [].
Proof.
  intros [E1 | [E1 E2]]; unfold generateThumbnails_try.
  - rewrite (bind_run_Throw _ _ _ _ _ _ _ _
               (scan_input_no_output_dir cfg 0%nat w w1 msg E1)).
    split; reflexivity.
  - rewrite (bind_run_Throw _ _ _ _ _ _ _ _
               (scan_input_no_listing cfg 0%nat w w1 w2 msg E1 E2)).
    split; reflexivity.
Qed.

(** C8.  An error that escapes the [try] block of [generateThumbnails] is
    caught by its [catch] block exactly once: the message is written to the
    error stream, [process.exit(1)] is called, the benchmark is not
    started, and the exit status of the process is 1. *)
Theorem C8_top_level_error_exits {W} `{Env W}
    (cfg : config_t) (w : W) (msg : string) :
  res (generateThumbnails_try cfg 0%nat w) = Throw msg ->
  let r := generateThumbnails (L:=unit) cfg tt w in
  let rm := main cfg tt w in
  res r = Exit 1 /\
  evs r = evs (generateThumbnails_try cfg 0%nat w)
          ++ [EErrorMessage msg; EExit 1] /\
  top_level_errors (evs r) = [msg] /\ exit_calls (evs r) = [1%Z] /\
  res rm = Exit 1 /\ exit_status (res rm) = 1%Z /\
  evs rm = ELog LTitle :: ELog LRule :: evs r.
Proof.
  intros Hthrow r rm.
  destruct (generateThumbnails_outcome cfg tt w) as (_ & _ & Ho).
  cbn zeta in Ho. rewrite Hthrow in Ho. destruct Ho as [Hr He].
  fold r in Hr, He.
  destruct (try_block_clean cfg w) as (Te & Ex & _). cbn zeta in Te, Ex.
  assert (Hm : rm = Run (Exit 1) tt (wld r) (ELog LTitle :: ELog LRule :: evs r)).
  { subst rm. unfold main, try_catch, bind, console_log, emit. fold r.
    destruct r as [o l1 w1 e1]. cbn [res loc wld evs] in *. subst o.
    destruct l1. reflexivity. }
  split; [exact Hr|]. split; [exact He|].
  split; [rewrite He; unfold top_level_errors in *; rewrite omap_app, Te;
          reflexivity|].
  split; [rewrite He; unfold exit_calls in *; rewrite omap_app, Ex;
          reflexivity|].
  rewrite Hm. repeat split; reflexivity.
Qed.

Lemma C8_top_level_error_exits_witness :
  let rm := main config tt image_is_a_file in
  res rm = Exit 1 /\ exit_status (res rm) = 1%Z /\
  top_level_errors (evs rm) = ["ENOTDIR: not a directory, mkdir image"].
Proof.
  assert (E : res (generateThumbnails_try config 0%nat image_is_a_file)
              = Throw "ENOTDIR: not a directory, mkdir image")
    by (vm_compute; reflexivity).
  destruct (C8_top_level_error_exits config image_is_a_file _ E)
    as (_ & _ & _ & _ & Hr & Hs & _).
  split; [exact Hr|]. split; [exact Hs|]. vm_compute. reflexivity.
Defined.

Lemma benchmark_pipeline_input (cfg : config_t) (testImage format : string) :
  pl_input (benchmark_pipeline cfg testImage format) = testImage.
Proof.
  unfold benchmark_pipeline, benchmark_encoder.
  destruct (String.eqb format "jpg"); [reflexivity|].
  destruct (String.eqb format "webp"); [reflexivity|].
  destruct (String.eqb format "avif"); reflexivity.
Qed.

(** Over a whole benchmark, the paths handed to [fs.remove] are those whose
    size query succeeded. *)
Lemma benchmark_removals {W} `{Env W} {L} (cfg : config_t) (l : L) (w : W) :
  removed_paths (evs (benchmarkFormats cfg l w)) =
  stat_ok_paths (evs (benchmarkFormats cfg l w)).
Proof.
  destruct (fst (fs_pathExists (test_image cfg) w)) as [[]|msg] eqn:E.
  - rewrite (benchmarkFormats_found cfg l w E). cbn zeta. cbn [evs].
    destruct (benchmark_loop cfg (test_image cfg) (formats cfg) []
                (snd (fs_pathExists (test_image cfg) w)))
      as (_ & rows & _ & _ & _ & Rm & _).
    set (rl := for_of (formats cfg) (benchmark_format cfg (test_image cfg)) []
               (snd (fs_pathExists (test_image cfg) w))) in *.
    change (EPathExists (test_image cfg) (Ok true) :: ELog LBenchmarking
            :: evs rl ++ [ETable (loc rl)])
      with ([EPathExists (test_image cfg) (Ok true); ELog LBenchmarking]
            ++ evs rl ++ [ETable (loc rl)]).
    unfold removed_paths, stat_ok_paths in *. rewrite !omap_app, Rm.
    reflexivity.
  - now rewrite (benchmarkFormats_missing cfg l w E).
  - now rewrite (benchmarkFormats_rejected cfg l w msg E).
Qed.

(** C9.  The benchmark reads [<inputDir>/1.jpg] and writes each format to
    [temp-test.<format>], a path without directory part.  The temporary
    file is handed to [fs.remove] only after its size was obtained: in an
    iteration whose pipeline the library accepted, whose encode wrote the
    file and whose size query is rejected, no removal is requested, the
    error row is recorded, and the world is left as the size query left
    it. *)
Theorem C9_temp_file_left_behind {W} `{Env W}
    (cfg : config_t) (format : string) (l : list row) (w : W) (msg : string) :
  let testImage := test_image cfg in
  let p := benchmark_pipeline cfg testImage format in
  let tmp := temp_path format in
  let w0 := snd (Date_now w) in
  pipeline_refusal W p = None ->
  fst (sharp_toFile p tmp w0) = Ok tt ->
  fst (fs_stat tmp (snd (sharp_toFile p tmp w0))) = Rejected msg ->
  let r := benchmark_format cfg testImage format l w in
  testImage = Path.join (inputDir cfg) "1.jpg" /\
  pl_input p = testImage /\
  tmp = "temp-test." +:+ format /\
  evs r = [ENow (fst (Date_now w)); EToFile p tmp (Ok tt);
           EStat tmp (Rejected msg)] /\
  removed_paths (evs r) = [] /\
  loc r = l ++ [error_row format msg] /\
  wld r = snd (fs_stat tmp (snd (sharp_toFile p tmp w0))) /\
  (forall (w' : W),
      removed_paths (evs (benchmarkFormats (L:=unit) cfg tt w')) =
      stat_ok_paths (evs (benchmarkFormats (L:=unit) cfg tt w'))).
Proof.
  intros testImage p tmp w0 Hr Et Es r.
  split; [reflexivity|]. split; [apply benchmark_pipeline_input|].
  split; [reflexivity|].
  assert (Hf : task_fails p tmp w0 msg
                 [EToFile p tmp (Ok tt); EStat tmp (Rejected msg)]
                 (snd (fs_stat tmp (snd (sharp_toFile p tmp w0))))).
  { apply NotMeasured with (w1 := snd (sharp_toFile p tmp w0));
      [exact Hr | |].
    - destruct (sharp_toFile p tmp w0) as [rt wt]. cbn [fst snd] in *.
      now subst rt.
    - destruct (fs_stat tmp (snd (sharp_toFile p tmp w0))) as [rs ws].
      cbn [fst snd] in *. now subst rs. }
  subst r.
  rewrite (benchmark_format_fails cfg testImage format l w msg _ _ Hf).
  cbn [evs loc wld]. repeat split; try reflexivity.
  intros w'. apply benchmark_removals.
Qed.

(** On the in-memory file system: the WebP file written by the benchmark
    is still there at the end of the run, the two others are gone. *)
Lemma C9_temp_file_left_behind_witness :
  let w := snd (fs_pathExists (test_image config) stat_refused) in
  let w1 := snd (Date_now w) in
  let r := benchmark_format config (test_image config) "webp" [] w in
  removed_paths (evs r) = [] /\
  MemFS.entries (wld r) "." = ["image"; "temp-test.webp"] /\
  MemFS.entries (wld (benchmarkFormats (L:=unit) config tt stat_refused)) "."
    = ["image"; "temp-test.webp"].
Proof.
  set (w := snd (fs_pathExists (test_image config) stat_refused)).
  assert (Et : fst (sharp_toFile
                      (benchmark_pipeline config (test_image config) "webp")
                      (temp_path "webp") (snd (Date_now w))) = Ok tt)
    by (vm_compute; reflexivity).
  assert (Es : fst (fs_stat (temp_path "webp")
                      (snd (sharp_toFile
                              (benchmark_pipeline config (test_image config) "webp")
                              (temp_path "webp") (snd (Date_now w)))))
               = Rejected "EACCES: permission denied, stat")
    by (vm_compute; reflexivity).
  assert (Hr : pipeline_refusal MemFS.t
                 (benchmark_pipeline config (test_image config) "webp") = None)
    by (vm_compute; reflexivity).
  destruct (C9_temp_file_left_behind config "webp" [] w _ Hr Et Es)
    as (_ & _ & _ & _ & Rm & _).
  cbn zeta. split; [exact Rm|]. vm_compute. split; reflexivity.
Defined.

(** C10.  When [generateThumbnails] has completed and [benchmarkFormats]
    throws, the error is handed to [console.error] by the final handler and
    nothing else happens: [process.exit] is not called and the exit status
    is 0. *)
Theorem C10_benchmark_error_is_only_logged {W} `{Env W}
    (cfg : config_t) (w : W) (msg : string) :
  let rg := generateThumbnails (L:=unit) cfg tt w in
  let rb := benchmarkFormats (L:=unit) cfg tt (wld rg) in
  res rg = Ret tt ->
  res rb = Throw msg ->
  let r := main cfg tt w in
  res r = Ret tt /\ exit_status (res r) = 0%Z /\
  evs r = ELog LTitle :: ELog LRule :: evs rg ++ evs rb ++ [EErrorValue msg] /\
  exit_calls (evs r) = [] /\ top_level_errors (evs r) = [].
Proof.
  intros rg rb Hg Hb r.
  assert (Hm : r = Run (Ret tt) tt (wld rb)
                 (ELog LTitle :: ELog LRule :: evs rg ++ evs rb
                  ++ [EErrorValue msg])).
  { subst r. unfold main, try_catch, bind, console_log, emit.
    fold rg. subst rb.
    destruct rg as [o l1 w1 e1]. cbn [res loc wld evs] in *. subst o.
    destruct l1.
    destruct (benchmarkFormats cfg () w1) as [o l2 w2 e2].
    cbn [res loc wld evs] in *. subst o. destruct l2.
    cbn. now rewrite <- app_assoc. }
  (* neither routine reached [process.exit] or the top-level handler *)
  assert (Hgc : top_level_errors (evs rg) = [] /\ exit_calls (evs rg) = []).
  { destruct (generateThumbnails_outcome cfg tt w) as (_ & _ & Ho).
    destruct (try_block_clean cfg w) as (Te & Ex & _).
    cbn zeta in *. fold rg in Ho.
    destruct (res (generateThumbnails_try cfg 0%nat w)) as [[]|m|c];
      destruct Ho as [Hr He].
    - rewrite He. split; assumption.
    - rewrite Hg in Hr. discriminate.
    - rewrite He. split; assumption. }
  assert (Hbc : top_level_errors (evs rb) = [] /\ exit_calls (evs rb) = []).
  { subst rb.
    destruct (fst (fs_pathExists (test_image cfg) (wld rg))) as [[]|m] eqn:E.
    - rewrite (benchmarkFormats_found cfg tt (wld rg) E) in Hb. discriminate.
    - rewrite (benchmarkFormats_missing cfg tt (wld rg) E) in Hb. discriminate.
    - rewrite (benchmarkFormats_rejected cfg tt (wld rg) m E).
      split; reflexivity. }
  destruct Hgc as [G1 G2]. destruct Hbc as [B1 B2].
  rewrite Hm. cbn [res evs exit_status].
  split; [reflexivity|]. split; [reflexivity|]. split; [reflexivity|].
  change (ELog LTitle :: ELog LRule :: evs rg ++ evs rb ++ [EErrorValue msg])
    with ([ELog LTitle; ELog LRule] ++ evs rg ++ evs rb ++ [EErrorValue msg]).
  unfold exit_calls, top_level_errors in *.
  rewrite !omap_app, G1, G2, B1, B2. split; reflexivity.
Qed.

Lemma C10_benchmark_error_is_only_logged_witness :
  let r := main config tt access_rejects in
  res r = Ret tt /\ exit_status (res r) = 0%Z /\
  last (evs r) = Some (EErrorValue "EIO: i/o error, access").
Proof.
  assert (Hg : res (generateThumbnails (L:=unit) config tt access_rejects)
               = Ret tt) by (vm_compute; reflexivity).
  assert (Hb : res (benchmarkFormats (L:=unit) config tt
                      (wld (generateThumbnails (L:=unit) config tt
                              access_rejects)))
               = Throw "EIO: i/o error, access") by (vm_compute; reflexivity).
  destruct (C10_benchmark_error_is_only_logged config access_rejects _ Hg Hb)
    as (Hr & Hs & _).
  split; [exact Hr|]. split; [exact Hs|]. vm_compute. reflexivity.
Defined.

(** ** Further properties of the two routines *)

(** The benchmark ends normally or by throwing; it throws only when the
    existence check itself rejects. *)
Lemma benchmarkFormats_cases {W} `{Env W} {L} (cfg : config_t) (l : L) (w : W) :
  let r := benchmarkFormats cfg l w in
  (exists b, fst (fs_pathExists (test_image cfg) w) = Ok b /\ res r = Ret tt)
  \/ (exists msg, fst (fs_pathExists (test_image cfg) w) = Rejected msg /\
        res r = Throw msg /\
        evs r = [EPathExists (test_image cfg) (Rejected msg)]).
Proof.
  intros r. subst r.
  destruct (fst (fs_pathExists (test_image cfg) w)) as [[]|msg] eqn:E.
  - left. exists true. now rewrite (benchmarkFormats_found cfg l w E).
  - left. exists false. now rewrite (benchmarkFormats_missing cfg l w E).
  - right. exists msg. now rewrite (benchmarkFormats_rejected cfg l w msg E).
Qed.

(** X1.  [generateThumbnails] never rejects: whatever the file system and the
    image library do, it returns normally or ends the process with
    [process.exit(1)], and it does the latter exactly when its [try] block
    threw, after one message on the error stream. *)
Theorem generateThumbnails_never_rejects {W} `{Env W} {L}
    (cfg : config_t) (l : L) (w : W) :
  let r := generateThumbnails cfg l w in
  (res r = Ret tt /\ top_level_errors (evs r) = [] /\ exit_calls (evs r) = [])
  \/ (exists msg,
        res r = Exit 1 /\ top_level_errors (evs r) = [msg] /\
        exit_calls (evs r) = [1%Z] /\
        res (generateThumbnails_try cfg 0%nat w) = Throw msg).
Proof.
  intros r. subst r.
  destruct (generateThumbnails_outcome cfg l w) as (_ & _ & Ho).
  destruct (try_block_clean cfg w) as (Te & Ex & Hres).
  cbn zeta in *.
  destruct Hres as [Hres | (msg & Hres)]; rewrite Hres in Ho;
    destruct Ho as [Hr He]; rewrite He.
  - left. repeat split; assumption.
  - right. exists msg. unfold top_level_errors, exit_calls in *.
    rewrite !omap_app, Te, Ex. repeat split; assumption || reflexivity.
Qed.

(** X2.  The exit status of the script is 1 when [generateThumbnails] met a
    top-level error, and then the benchmark is not started; otherwise it is
    0, whatever the benchmark does, and the benchmark runs after the
    conversion.  The entry point never ends in an unhandled rejection. *)
Theorem main_exit_status {W} `{Env W} (cfg : config_t) (w : W) :
  let rg := generateThumbnails (L:=unit) cfg tt w in
  let rb := benchmarkFormats (L:=unit) cfg tt (wld rg) in
  let rm := main cfg tt w in
  (res rg = Exit 1 /\ res rm = Exit 1 /\ exit_status (res rm) = 1%Z /\
   evs rm = ELog LTitle :: ELog LRule :: evs rg)
  \/ (res rg = Ret tt /\ res rm = Ret tt /\ exit_status (res rm) = 0%Z /\
      exists tail,
        evs rm = ELog LTitle :: ELog LRule :: evs rg ++ evs rb ++ tail /\
        (res rb = Ret tt /\ tail = []
         \/ exists msg, res rb = Throw msg /\ tail = [EErrorValue msg])).
Proof.
  intros rg rb rm.
  assert (Hends : res rg = Ret tt \/ res rg = Exit 1).
  { destruct (generateThumbnails_outcome cfg tt w) as (_ & _ & Ho).
    destruct (try_block_clean cfg w) as (_ & _ & Hres). cbn zeta in *.
    fold rg in Ho.
    destruct Hres as [Hres | (msg & Hres)]; rewrite Hres in Ho;
      destruct Ho as [Hr _]; auto. }
  destruct Hends as [Hg | Hg].
  - right.
    destruct (benchmarkFormats_cases (L:=unit) cfg tt (wld rg))
      as [(b & _ & Hb) | (msg & _ & Hb & _)]; cbn zeta in Hb; fold rb in Hb.
    + assert (Hm : rm = Run (Ret tt) tt (wld rb)
                     (ELog LTitle :: ELog LRule :: evs rg ++ evs rb ++ [])).
      { subst rm rb. unfold main, try_catch, bind, console_log, emit. fold rg.
        destruct rg as [o [] w1 e1]. cbn [res loc wld evs] in *. subst o.
        destruct (benchmarkFormats cfg () w1) as [o [] w2 e2].
        cbn [res loc wld evs] in *. subst o. cbn. now rewrite app_nil_r. }
      rewrite Hm. cbn [res evs exit_status]. repeat split; try assumption.
      exists []. split; [reflexivity | now left].
    + assert (Hm : rm = Run (Ret tt) tt (wld rb)
                     (ELog LTitle :: ELog LRule :: evs rg ++ evs rb
                      ++ [EErrorValue msg])).
      { subst rm rb. unfold main, try_catch, bind, console_log, emit. fold rg.
        destruct rg as [o [] w1 e1]. cbn [res loc wld evs] in *. subst o.
        destruct (benchmarkFormats cfg () w1) as [o [] w2 e2].
        cbn [res loc wld evs] in *. subst o. cbn. now rewrite <- app_assoc. }
      rewrite Hm. cbn [res evs exit_status]. repeat split; try assumption.
      exists [EErrorValue msg]. split; [reflexivity | right; eauto].
  - left.
    assert (Hm : rm = Run (Exit 1) tt (wld rg)
                   (ELog LTitle :: ELog LRule :: evs rg)).
    { subst rm. unfold main, try_catch, bind, console_log, emit. fold rg.
      destruct rg as [o [] w1 e1]. cbn [res loc wld evs] in *. now subst o. }
    rewrite Hm. repeat split; assumption || reflexivity.
Qed.

(** X3.  When the existence check resolves, as the one of [fs-extra] always
    does, [benchmarkFormats] returns normally: no failure of the image
    library, of the size query or of the removal escapes it. *)
Theorem benchmark_never_throws {W} `{Env W} {L}
    (cfg : config_t) (l : L) (w : W) (b : bool) :
  fst (fs_pathExists (test_image cfg) w) = Ok b ->
  let r := benchmarkFormats cfg l w in
  res r = Ret tt /\ top_level_errors (evs r) = [] /\ exit_calls (evs r) = [].
Proof.
  intros E r. subst r. destruct b.
  - rewrite (benchmarkFormats_found cfg l w E). cbn zeta. cbn [res evs].
    destruct (benchmark_loop cfg (test_image cfg) (formats cfg) []
                (snd (fs_pathExists (test_image cfg) w)))
      as (_ & rows & _ & _ & _ & _ & Te & Ex).
    set (rl := for_of (formats cfg) (benchmark_format cfg (test_image cfg)) []
               (snd (fs_pathExists (test_image cfg) w))) in *.
    change (EPathExists (test_image cfg) (Ok true) :: ELog LBenchmarking
            :: evs rl ++ [ETable (loc rl)])
      with ([EPathExists (test_image cfg) (Ok true); ELog LBenchmarking]
            ++ evs rl ++ [ETable (loc rl)]).
    unfold top_level_errors, exit_calls in *. rewrite !omap_app, Te, Ex.
    repeat split; reflexivity.
  - rewrite (benchmarkFormats_missing cfg l w E). repeat split; reflexivity.
Qed.

Lemma benchmark_never_throws_witness :
  res (benchmarkFormats (L:=unit) config tt stat_refused) = Ret tt.
Proof.
  assert (E : fst (fs_pathExists (test_image config) stat_refused) = Ok true)
    by (vm_compute; reflexivity).
  exact (proj1 (benchmark_never_throws (L:=unit) config tt stat_refused true E)).
Defined.

(** X4.  When the output directory cannot be created, the input directory is not
    even listed; when the input directory cannot be listed, nothing is
    announced or converted.  In both cases the run consists of the failed
    call, the message on the error stream and [process.exit(1)]. *)
Theorem setup_failure_stops_before_any_work {W} `{Env W} {L}
    (cfg : config_t) (l : L) (w w1 w2 : W) (msg : string) :
  fs_ensureDir (outputDir cfg) w = (Rejected msg, w1)
  \/ (fs_ensureDir (outputDir cfg) w = (Ok tt, w1) /\
      fs_readdir (inputDir cfg) w1 = (Rejected msg, w2)) ->
  let r := generateThumbnails cfg l w in
  res r = Exit 1 /\
  (evs r = [EEnsureDir (outputDir cfg) (Rejected msg);
            EErrorMessage msg; EExit 1]
   \/ evs r = [EEnsureDir (outputDir cfg) (Ok tt);
               EReaddir (inputDir cfg) (Rejected msg);
               EErrorMessage msg; EExit 1]) /\
  tofile_calls (evs r) = [] /\ log_count (evs r) = 0%nat.
Proof.
  intros Hf r. subst r.
  destruct (generateThumbnails_outcome cfg l w) as (_ & _ & Ho).
  cbn zeta in Ho. unfold generateThumbnails_try in Ho.
  destruct Hf as [E1 | [E1 E2]].
  - rewrite (bind_run_Throw _ _ _ _ _ _ _ _
               (scan_input_no_output_dir cfg 0%nat w w1 msg E1)) in Ho.
    cbn [res evs] in Ho. destruct Ho as [Hr He]. rewrite He.
    split; [exact Hr|]. split; [now left|]. split; reflexivity.
  - rewrite (bind_run_Throw _ _ _ _ _ _ _ _
               (scan_input_no_listing cfg 0%nat w w1 w2 msg E1 E2)) in Ho.
    cbn [res evs] in Ho. destruct Ho as [Hr He]. rewrite He.
    split; [exact Hr|]. split; [now right|]. split; reflexivity.
Qed.

Lemma setup_failure_stops_before_any_work_witness :
  evs (generateThumbnails (L:=unit) config tt image_is_a_file) =
    [EEnsureDir "./image/thumb"
       (Rejected "ENOTDIR: not a directory, mkdir image");
     EErrorMessage "ENOTDIR: not a directory, mkdir image"; EExit 1].
Proof.
  assert (E : fs_ensureDir (outputDir config) image_is_a_file
              = (Rejected "ENOTDIR: not a directory, mkdir image",
                 image_is_a_file)) by (vm_compute; reflexivity).
  destruct (setup_failure_stops_before_any_work (L:=unit) config tt
              image_is_a_file image_is_a_file image_is_a_file _ (or_introl E))
    as (_ & [He | He] & _); [exact He|].
  vm_compute in He. discriminate.
Defined.

(** X5.  A failure of the reporting step comes after the work: in a run that got
    past the two directory calls and still ended with [process.exit(1)],
    every conversion whose pipeline the library accepts had been requested,
    every task had ended in its line, and the completion line had been
    printed; only the size-reduction line is missing. *)
Theorem report_failure_follows_conversions {W} `{Env W} {L}
    (cfg : config_t) (l : L) (w w1 w2 : W) (files : list string) :
  fs_ensureDir (outputDir cfg) w = (Ok tt, w1) ->
  fs_readdir (inputDir cfg) w1 = (Ok files, w2) ->
  res (generateThumbnails cfg l w) = Exit 1 ->
  let es := evs (generateThumbnails cfg l w) in
  tofile_calls es = accepted_calls W cfg (List.filter is_image_file files) /\
  reported_names es = task_names cfg (List.filter is_image_file files) /\
  (exists seconds,
      In (ELog (LComplete (length (thumbnails_logged es)) seconds)) es) /\
  (exists msg, top_level_errors es = [msg]) /\
  size_reports es = [].
Proof.
  intros E1 E2 Hexit es. subst es.
  destruct (generateThumbnails_views cfg l w w1 w2 files E1 E2)
    as (T & _ & Nm & _ & HIn). cbn zeta in *.
  split; [exact T|]. split; [exact Nm|]. split; [exact HIn|].
  destruct (generateThumbnails_outcome cfg l w) as (_ & _ & Ho).
  destruct (try_block_clean cfg w) as (Te & _ & Hres). cbn zeta in *.
  destruct Hres as [Ht | (msg & Ht)]; rewrite Ht in Ho;
    destruct Ho as [Hr He].
  { rewrite Hexit in Hr. discriminate. }
  split.
  { exists msg. rewrite He. unfold top_level_errors in *.
    rewrite omap_app, Te. reflexivity. }
  rewrite (generateThumbnails_try_run cfg w w1 w2 files E1 E2) in He, Ht.
  cbn [res evs] in He, Ht.
  match type of Ht with
  | res (report_savings cfg ?fs ?n ?w') = _ =>
      destruct (report_savings_spec cfg fs n w')
        as (_ & _ & [(? & ? & ? & Hres & _) | (m & _ & Hsz)]);
      cbn zeta in *; [rewrite Ht in Hres; discriminate|]
  end.
  rewrite He, size_reports_app, size_reports_run_tail, Hsz
    by apply loop_size_reports.
  reflexivity.
Qed.

Lemma report_failure_follows_conversions_witness :
  let r := generateThumbnails (L:=unit) config tt input_stat_refused in
  res r = Exit 1 /\ length (tofile_calls (evs r)) = 6%nat /\
  top_level_errors (evs r) = ["EACCES: permission denied, stat"].
Proof.
  set (w1 := snd (fs_ensureDir (outputDir config) input_stat_refused)).
  set (w2 := snd (fs_readdir (inputDir config) w1)).
  assert (E1 : fs_ensureDir (outputDir config) input_stat_refused = (Ok tt, w1))
    by (vm_compute; reflexivity).
  assert (E2 : fs_readdir (inputDir config) w1 = (Ok ["a.jpg"; "thumb"], w2))
    by (vm_compute; reflexivity).
  assert (E3 : res (generateThumbnails (L:=unit) config tt input_stat_refused)
               = Exit 1) by (vm_compute; reflexivity).
  destruct (report_failure_follows_conversions config tt input_stat_refused
              w1 w2 _ E1 E2 E3) as (T & _).
  split; [exact E3|]. split; [rewrite T; reflexivity|].
  vm_compute. reflexivity.
Defined.

Lemma task_calls_are_tasks (cfg : config_t) (imageFiles : list string) :
  Forall (fun f => is_image_file f = true) imageFiles ->
  Forall (is_task_call cfg) (task_calls cfg imageFiles).
Proof.
  intros Hall. apply List.Forall_forall. intros c Hc.
  unfold task_calls in Hc.
  apply in_flat_map in Hc. destruct Hc as (file & Hfile & Hc).
  apply in_flat_map in Hc. destruct Hc as (size & Hsize & Hc).
  apply in_map_iff in Hc. destruct Hc as (format & <- & Hformat).
  exists file, size, format. repeat split; try assumption.
  rewrite List.Forall_forall in Hall. now apply Hall.
Qed.

(** X6.  Whatever happens, [generateThumbnails] reads only recognized files of
    the input directory, writes only to [path.join(outputDir, ...)] names
    built from the basename, a configured suffix and a configured format,
    and never asks for a removal. *)
Theorem generateThumbnails_footprint {W} `{Env W} {L}
    (cfg : config_t) (l : L) (w : W) :
  let es := evs (generateThumbnails cfg l w) in
  Forall (is_task_call cfg) (tofile_calls es) /\ removed_paths es = [].
Proof.
  intros es. subst es.
  destruct (generateThumbnails_outcome cfg l w) as (_ & _ & Ho).
  cbn zeta in Ho.
  assert (Ht : Forall (is_task_call cfg)
                 (tofile_calls (evs (generateThumbnails_try cfg 0%nat w))) /\
               removed_paths (evs (generateThumbnails_try cfg 0%nat w)) = []).
  { destruct (fs_ensureDir (outputDir cfg) w) as [[[]|msg] w1] eqn:E1.
    - destruct (fs_readdir (inputDir cfg) w1) as [[files|msg] w2] eqn:E2.
      + destruct (try_block_views cfg w w1 w2 files E1 E2)
          as (T & _ & _ & _ & _ & _ & _ & Rm).
        cbn zeta in *. rewrite T. split; [|exact Rm].
        unfold accepted_calls. apply List.Forall_forall. intros c Hc.
        apply filter_In in Hc. destruct Hc as [Hc _]. revert c Hc.
        apply List.Forall_forall.
        apply task_calls_are_tasks. apply List.Forall_forall. intros f Hf.
        apply filter_In in Hf. apply Hf.
      + unfold generateThumbnails_try.
        rewrite (bind_run_Throw _ _ _ _ _ _ _ _
                   (scan_input_no_listing cfg 0%nat w w1 w2 msg E1 E2)).
        split; [constructor | reflexivity].
    - unfold generateThumbnails_try.
      rewrite (bind_run_Throw _ _ _ _ _ _ _ _
                 (scan_input_no_output_dir cfg 0%nat w w1 msg E1)).
      split; [constructor | reflexivity]. }
  destruct Ht as [Tk Rm].
  destruct (res (generateThumbnails_try cfg 0%nat w)) as [[]|msg|c];
    destruct Ho as [_ He]; rewrite He; try (split; assumption).
  unfold tofile_calls, removed_paths in *. rewrite !omap_app, Rm.
  cbn. rewrite app_nil_r. split; [exact Tk | reflexivity].
Qed.

(** X7.  With no size or no format configured, every recognized file is still
    announced, but nothing is converted and the count reported is zero. *)
Theorem nothing_to_generate {W} `{Env W} {L}
    (cfg : config_t) (l : L) (w w1 w2 : W) (files : list string) :
  fs_ensureDir (outputDir cfg) w = (Ok tt, w1) ->
  fs_readdir (inputDir cfg) w1 = (Ok files, w2) ->
  sizes cfg = [] \/ formats cfg = [] ->
  let es := evs (generateThumbnails cfg l w) in
  tofile_calls es = [] /\
  processed_files es = List.filter is_image_file files /\
  reported_names es = [] /\
  (exists seconds, In (ELog (LComplete 0 seconds)) es).
Proof.
  intros E1 E2 Hempty es. subst es.
  destruct (generateThumbnails_views cfg l w w1 w2 files E1 E2)
    as (T & P & Nm & Cnt & (sec & HIn)). cbn zeta in *.
  assert (Hz : (length (sizes cfg) * length (formats cfg) = 0)%nat).
  { destruct Hempty as [-> | ->]; cbn; lia. }
  rewrite Hz, Nat.mul_0_r in Cnt.
  assert (Hth : thumbnails_logged (evs (generateThumbnails cfg l w)) = []).
  { destruct (thumbnails_logged (evs (generateThumbnails cfg l w)));
      [reflexivity | discriminate]. }
  rewrite Hth in HIn.
  assert (Hlen : forall {A} (x : list A), length x = 0%nat -> x = [])
    by (intros A [|a x]; [reflexivity | discriminate]).
  split.
  { rewrite T. unfold accepted_calls.
    rewrite (Hlen _ (task_calls cfg (List.filter is_image_file files)));
      [reflexivity|].
    rewrite task_calls_length, Hz. lia. }
  split; [exact P|]. split; [|eauto].
  rewrite Nm. apply Hlen. rewrite task_names_length, Hz. lia.
Qed.

Lemma nothing_to_generate_witness :
  let es := evs (generateThumbnails (L:=unit) config_no_sizes tt gallery) in
  tofile_calls es = [] /\ processed_files es = ["a.jpg"].
Proof.
  set (w1 := snd (fs_ensureDir (outputDir config_no_sizes) gallery)).
  set (w2 := snd (fs_readdir (inputDir config_no_sizes) w1)).
  assert (E1 : fs_ensureDir (outputDir config_no_sizes) gallery = (Ok tt, w1))
    by (vm_compute; reflexivity).
  assert (E2 : fs_readdir (inputDir config_no_sizes) w1
               = (Ok ["a.jpg"; "notes.txt"; "thumb"], w2))
    by (vm_compute; reflexivity).
  destruct (nothing_to_generate config_no_sizes tt gallery w1 w2 _ E1 E2
              (or_introl eq_refl)) as (T & P & _).
  split; [exact T | exact P].
Defined.

(** X8.  A thumbnail whose pipeline was accepted and that was written, but
    whose size cannot be queried, is reported as failed and is not counted,
    although the file is there. *)
Theorem written_but_not_counted {W} `{Env W}
    (cfg : config_t) (basename inputPath : string) (size : size_spec)
    (format : string) (l : nat) (w : W) (msg : string) :
  let p := thumbnail_pipeline cfg inputPath size format in
  let name := output_filename basename size format in
  let out := Path.join (outputDir cfg) name in
  pipeline_refusal W p = None ->
  fst (sharp_toFile p out w) = Ok tt ->
  fst (fs_stat out (snd (sharp_toFile p out w))) = Rejected msg ->
  let r := thumbnail cfg basename inputPath size format l w in
  res r = Ret tt /\ loc r = l /\
  evs r = [EToFile p out (Ok tt); EStat out (Rejected msg);
           ELog (LFailed name msg)].
Proof.
  intros p name out Hr Et Es r.
  assert (Hf : task_fails p out w msg
                 [EToFile p out (Ok tt); EStat out (Rejected msg)]
                 (snd (fs_stat out (snd (sharp_toFile p out w))))).
  { apply NotMeasured with (w1 := snd (sharp_toFile p out w));
      [exact Hr | |].
    - destruct (sharp_toFile p out w) as [rt wt]. cbn [fst snd] in *.
      now subst rt.
    - destruct (fs_stat out (snd (sharp_toFile p out w))) as [rs ws].
      cbn [fst snd] in *. now subst rs. }
  subst r.
  rewrite (thumbnail_fails cfg basename inputPath size format l w msg _ _ Hf).
  repeat split; reflexivity.
Qed.

Lemma written_but_not_counted_witness :
  let r := thumbnail config "a" "image/a.jpg"
             {| width := 80; height := 80; suffix := "" |} "webp"
             1%nat thumb_stat_refused in
  loc r = 1%nat /\
  MemFS.entries (wld r) "image/thumb" = ["a.webp"].
Proof.
  assert (Et : fst (sharp_toFile
                      (thumbnail_pipeline config "image/a.jpg"
                         {| width := 80; height := 80; suffix := "" |} "webp")
                      (Path.join (outputDir config)
                         (output_filename "a"
                            {| width := 80; height := 80; suffix := "" |} "webp"))
                      thumb_stat_refused) = Ok tt)
    by (vm_compute; reflexivity).
  assert (Es : fst (fs_stat
                      (Path.join (outputDir config)
                         (output_filename "a"
                            {| width := 80; height := 80; suffix := "" |} "webp"))
                      (snd (sharp_toFile
                         (thumbnail_pipeline config "image/a.jpg"
                            {| width := 80; height := 80; suffix := "" |} "webp")
                         (Path.join (outputDir config)
                            (output_filename "a"
                               {| width := 80; height := 80; suffix := "" |} "webp"))
                         thumb_stat_refused)))
               = Rejected "EACCES: permission denied, stat")
    by (vm_compute; reflexivity).
  assert (Hr : pipeline_refusal MemFS.t
                 (thumbnail_pipeline config "image/a.jpg"
                    {| width := 80; height := 80; suffix := "" |} "webp")
               = None) by (vm_compute; reflexivity).
  destruct (written_but_not_counted config "a" "image/a.jpg" _ "webp" 1%nat
              thumb_stat_refused _ Hr Et Es) as (_ & Lc & _).
  split; [exact Lc|]. vm_compute. reflexivity.
Defined.

(** X9.  The two [switch] statements agree on the quality handed to the encoder
    for every format except [jpeg], which the conversion encodes as JPEG at
    [quality.jpg] and for which the benchmark selects no encoder. *)
Theorem benchmark_encoder_agrees
    (cfg : config_t) (inputPath testImage : string) (size : size_spec)
    (format : string) :
  format <> "jpeg" ->
  pl_encoder (thumbnail_pipeline cfg inputPath size format) =
    match pl_encoder (benchmark_pipeline cfg testImage format) with
    | Some (Jpeg q _ _) => Some (Jpeg q true true)
    | Some (Webp q _) => Some (Webp q (Some 6%Z))
    | Some (Avif q _) => Some (Avif q (Some 4%Z))
    | None => None
    end /\
  pl_encoder (thumbnail_pipeline cfg inputPath size "jpeg") =
    Some (Jpeg (quality cfg !! "jpg") true true) /\
  pl_encoder (benchmark_pipeline cfg testImage "jpeg") = None.
Proof.
  intros Hne. split; [|split; reflexivity].
  unfold thumbnail_pipeline, benchmark_pipeline, select_encoder,
    benchmark_encoder.
  destruct (String.eqb_spec format "jpeg") as [->|_]; [congruence|].
  rewrite orb_false_r.
  destruct (String.eqb format "jpg"); [reflexivity|].
  destruct (String.eqb format "webp"); [reflexivity|].
  destruct (String.eqb format "avif"); reflexivity.
Qed.

Lemma benchmark_encoder_agrees_witness :
  pl_encoder (thumbnail_pipeline config "image/a.jpg"
                {| width := 80; height := 80; suffix := "" |} "webp")
  = Some (Webp (Some 80%Z) (Some 6%Z)).
Proof.
  assert (Hne : "webp" <> "jpeg") by discriminate.
  destruct (benchmark_encoder_agrees config "image/a.jpg"
              "image/1.jpg" {| width := 80; height := 80; suffix := "" |}
              "webp" Hne) as (He & _).
  rewrite He. vm_compute. reflexivity.
Defined.

(** X10.  Whatever happens, [benchmarkFormats] checks the existence of the test
    image and of nothing else, reads only the test image, writes only to
    [temp-test.<format>] for configured formats, removes only such paths,
    and lists no directory. *)
Theorem benchmarkFormats_footprint {W} `{Env W} {L}
    (cfg : config_t) (l : L) (w : W) :
  let es := evs (benchmarkFormats cfg l w) in
  existence_checks es = [Path.join (inputDir cfg) "1.jpg"] /\
  Forall (fun c => pl_input (fst c) = Path.join (inputDir cfg) "1.jpg" /\
                   In (snd c) (map temp_path (formats cfg)))
         (tofile_calls es) /\
  Forall (fun p => In p (map temp_path (formats cfg))) (removed_paths es) /\
  listed_dirs es = [].
Proof.
  intros es. subst es.
  change (Path.join (inputDir cfg) "1.jpg") with (test_image cfg).
  destruct (fst (fs_pathExists (test_image cfg) w)) as [[]|msg] eqn:E.
  - rewrite (benchmarkFormats_found cfg l w E). cbn zeta. cbn [evs].
    set (w1 := snd (fs_pathExists (test_image cfg) w)).
    destruct (benchmark_loop cfg (test_image cfg) (formats cfg) [] w1)
      as (_ & rows0 & _ & T & _).
    destruct (benchmark_loop_footprint cfg (test_image cfg) (formats cfg) [] w1)
      as (rows & _ & _ & _ & _ & Rm & Ld & Ec).
    set (rl := for_of (formats cfg) (benchmark_format cfg (test_image cfg)) []
                 w1) in *.
    change (EPathExists (test_image cfg) (Ok true) :: ELog LBenchmarking
            :: evs rl ++ [ETable (loc rl)])
      with ([EPathExists (test_image cfg) (Ok true); ELog LBenchmarking]
            ++ evs rl ++ [ETable (loc rl)]).
    unfold existence_checks, tofile_calls, removed_paths, listed_dirs in *.
    rewrite !omap_app, T, Ld, Ec. cbn [omap app]. rewrite !app_nil_r.
    split; [reflexivity|]. split; [|split; [exact Rm | reflexivity]].
    apply List.Forall_forall. intros c Hc.
    apply filter_In in Hc. destruct Hc as [Hc _].
    apply in_map_iff in Hc. destruct Hc as (f & <- & Hf). cbn [fst snd].
    split; [apply benchmark_pipeline_input | now apply in_map].
  - rewrite (benchmarkFormats_missing cfg l w E).
    repeat split; try reflexivity; constructor.
  - rewrite (benchmarkFormats_rejected cfg l w msg E).
    repeat split; try reflexivity; constructor.
Qed.

(** X11.  When the test image exists, the table has a row for every configured
    format and no row for any other; it has exactly one row per format plus
    one more for every removal that was rejected. *)
Theorem benchmark_table_shape {W} `{Env W} {L}
    (cfg : config_t) (l : L) (w : W) :
  fst (fs_pathExists (test_image cfg) w) = Ok true ->
  let r := benchmarkFormats cfg l w in
  exists loop_events rows,
    evs r = EPathExists (test_image cfg) (Ok true) :: ELog LBenchmarking
            :: loop_events ++ [ETable rows] /\
    length rows =
      (length (formats cfg) + length (rejected_removals loop_events))%nat /\
    Forall (fun row => In (row_format row) (formats cfg)) rows /\
    Forall (fun f => In f (map row_format rows)) (formats cfg).
Proof.
  intros E r. subst r.
  rewrite (benchmarkFormats_found cfg l w E). cbn zeta. cbn [evs].
  destruct (benchmark_loop_footprint cfg (test_image cfg) (formats cfg) []
              (snd (fs_pathExists (test_image cfg) w)))
    as (rows & Hl & Len & Fm & Cov & _).
  cbn [app] in Hl. rewrite Hl.
  eexists _, rows. split; [reflexivity|]. repeat split; assumption.
Qed.

Lemma benchmark_table_shape_witness :
  exists loop_events rows,
    evs (benchmarkFormats (L:=unit) config tt stat_refused) =
      EPathExists "image/1.jpg" (Ok true) :: ELog LBenchmarking
      :: loop_events ++ [ETable rows] /\
    map row_format rows = ["jpg"; "webp"; "avif"].
Proof.
  assert (E : fst (fs_pathExists (test_image config) stat_refused) = Ok true)
    by (vm_compute; reflexivity).
  destruct (benchmark_table_shape (L:=unit) config tt stat_refused E)
    as (le & rows & He & _).
  exists (removelast (skipn 2 (evs (benchmarkFormats (L:=unit) config tt
                                      stat_refused)))),
         [measured_row "jpg" 800 7;
          error_row "webp" "EACCES: permission denied, stat";
          measured_row "avif" 800 7].
  vm_compute. split; reflexivity.
Defined.

(** X12.  A task whose pipeline the image library refuses to build (a width
    or height that is not positive, a quality out of range) makes no call
    at all: nothing is read, written or measured.  The task logs its
    [Failed] line with the message of the refusal, leaves the counter and
    the world as they were, and returns normally. *)
Theorem refused_task_makes_no_call {W} `{Env W}
    (cfg : config_t) (basename inputPath : string) (size : size_spec)
    (format : string) (l : nat) (w : W) (msg : string) :
  pipeline_refusal W (thumbnail_pipeline cfg inputPath size format)
    = Some msg ->
  thumbnail cfg basename inputPath size format l w =
    Run (Ret tt) l w
        [ELog (LFailed (basename +:+ suffix size +:+ "." +:+ format) msg)].
Proof.
  intros Hr.
  exact (thumbnail_fails cfg basename inputPath size format l w msg [] w
           (Refused _ _ _ _ Hr)).
Qed.

(** With a size of width 0, the three thumbnails of that size fail without
    any call, and the three others are written. *)
Lemma refused_task_makes_no_call_witness :
  thumbnail config_zero_width "a" "image/a.jpg"
    {| width := 0; height := 160; suffix := "@2x" |} "jpg" 3%nat gallery
  = Run (Ret tt) 3%nat gallery
      [ELog (LFailed "a@2x.jpg" "Expected positive integer for width")] /\
  (let r := generateThumbnails (L:=unit) config_zero_width tt gallery in
   res r = Ret tt /\
   map snd (tofile_calls (evs r)) =
     ["image/thumb/a.jpg"; "image/thumb/a.webp"; "image/thumb/a.avif"] /\
   map fst (failures_logged (evs r)) = ["a@2x.jpg"; "a@2x.webp"; "a@2x.avif"]).
Proof.
  assert (Hr : pipeline_refusal MemFS.t
                 (thumbnail_pipeline config_zero_width "image/a.jpg"
                    {| width := 0; height := 160; suffix := "@2x" |} "jpg")
               = Some "Expected positive integer for width")
    by (vm_compute; reflexivity).
  split.
  - exact (refused_task_makes_no_call config_zero_width "a" "image/a.jpg"
             _ "jpg" 3%nat gallery _ Hr).
  - vm_compute. repeat split; reflexivity.
Defined.

(** X13.  An iteration of the benchmark whose pipeline the image library
    refuses to build reads the clock and makes no other call: the refusal
    is recorded as an error row and the iteration returns normally. *)
Theorem refused_format_is_a_row {W} `{Env W}
    (cfg : config_t) (testImage format : string) (l : list row) (w : W)
    (msg : string) :
  pipeline_refusal W (benchmark_pipeline cfg testImage format) = Some msg ->
  benchmark_format cfg testImage format l w =
    Run (Ret tt)
        (l ++ [{| row_format := format; row_size := CText "Error";
                  row_time := CText msg |}])
        (snd (Date_now w)) [ENow (fst (Date_now w))].
Proof.
  intros Hr.
  exact (benchmark_format_fails cfg testImage format l w msg []
           (snd (Date_now w)) (Refused _ _ _ _ Hr)).
Qed.

(** With the WebP quality at 0, the table holds the refusal in the row of
    [webp], and no temporary WebP file was ever written. *)
Lemma refused_format_is_a_row_witness :
  benchmark_format config_webp_quality_0 "image/1.jpg" "webp" []
    only_test_image
  = Run (Ret tt)
      [error_row "webp" "Expected integer between 1 and 100 for quality"]
      (snd (Date_now only_test_image)) [ENow 1000] /\
  (let r := benchmarkFormats (L:=unit) config_webp_quality_0 tt
              only_test_image in
   res r = Ret tt /\
   map snd (tofile_calls (evs r)) = ["temp-test.jpg"; "temp-test.avif"] /\
   last (evs r) =
     Some (ETable [measured_row "jpg" 800 7;
                   error_row "webp"
                     "Expected integer between 1 and 100 for quality";
                   measured_row "avif" 800 7])).
Proof.
  assert (Hr : pipeline_refusal MemFS.t
                 (benchmark_pipeline config_webp_quality_0 "image/1.jpg" "webp")
               = Some "Expected integer between 1 and 100 for quality")
    by (vm_compute; reflexivity).
  split.
  - exact (refused_format_is_a_row config_webp_quality_0 "image/1.jpg"
             "webp" [] only_test_image _ Hr).
  - vm_compute. repeat split; reflexivity.
Defined.
